(** * hermione-screenshots-cleaner: the plugin of lib/index.js, embedded and verified

    The development follows lib/index.js:
    - [Lodash]: the lodash helpers the plugin calls on arrays of strings;
    - [Js]: thrown values and settled promises;
    - [Master]: the two handlers of [subscribeOnMasterEvents];
    - [Worker]: the handler of [subscribeOnWorkerEvents] and the commands it
      installs;
    - [Action]: the body of the "clean-screenshots" command, as a trace of the
      calls it makes to its collaborators.

    What is taken of the host: paths and patterns are strings compared by
    equality; file sizes are whole numbers of bytes, added exactly (the
    source adds doubles, which is exact while the sum stays within 2^53); a
    thrown value is an object with a [stack], [null] or [undefined], or any
    other value; browser ids are plain property names where they are used as
    keys of an object ([plainKey]); [path.resolve], [process.cwd()],
    [Object.keys(EventEmitter.prototype)], [mocha.getTestContext] and the
    browser configurations are parameters ([env]), and so are the answers of
    [hermione.run], [glob.expandPaths], [fs], [inquirer] and [filesize]
    ([collaborators]). *)

From Stdlib Require Import ZArith List String Ascii Bool Lia.
From stdpp Require Import base option list functions strings pretty gmap.

Local Open Scope string_scope.
Local Open Scope list_scope.

(** ** lodash on arrays of path strings *)

Module Lodash.

(** [_.compact(array)]: drops the falsey entries.  The entries here are
    strings and [null]/[undefined] ([None]); the only falsey string is the
    empty one. *)
Definition truthy (v : option string) : bool :=
  match v with
  | Some s => negb (String.eqb s "")
  | None => false
  end.

Fixpoint compact (array : list (option string)) : list string :=
  match array with
  | [] => []
  | Some s :: rest => if truthy (Some s) then s :: compact rest else compact rest
  | None :: rest => compact rest
  end.

(** [_.uniq(array)] is [baseUniq]: walk the array, push a value on the result
    unless the result includes it already (first occurrences are kept). *)
Fixpoint baseUniq (result array : list string) : list string :=
  match array with
  | [] => result
  | value :: rest =>
      if decide (value ∈ result) then baseUniq result rest
      else baseUniq (result ++ [value]) rest
  end.

Definition uniq (array : list string) : list string := baseUniq [] array.

(** [_.difference(array, values)]: the entries of [array], in order, that
    [values] does not include.  A [values] that is not an array
    ([undefined]) is dropped by the flattening step, so nothing is
    excluded. *)
Fixpoint baseDifference (array values : list string) : list string :=
  match array with
  | [] => []
  | value :: rest =>
      if decide (value ∈ values) then baseDifference rest values
      else value :: baseDifference rest values
  end.

Definition difference (array : list string) (values : option (list string))
  : list string :=
  baseDifference array (default [] values).

(** [_.isEmpty(array)] *)
Definition isEmpty (array : list string) : bool :=
  match array with [] => true | _ => false end.

(** [array.join(sep)] *)
Definition join (sep : string) (array : list string) : string :=
  String.concat sep array.

End Lodash.

(** ** JavaScript values the plugin handles *)

Module Js.

(** A thrown value or rejection reason: an object carrying a [stack]
    string, [null] or [undefined] ([Nullish]: a promise rejected with no
    reason, a [throw undefined]), or any other value (a thrown string, say),
    kept by its text. *)
Inductive thrown : Type :=
| ErrorObject (stack : string)
| Primitive (text : string)
| Nullish.

(** The outcome of a call that may throw, or of an awaited promise. *)
Inductive result (A : Type) : Type :=
| Ok (value : A)
| Throw (reason : thrown).
Arguments Ok {A} value.
Arguments Throw {A} reason.

(** What [logger.error] and [logger.log] are handed: a string, or the
    thrown value itself. *)
Inductive logged : Type :=
| Text (text : string)
| Value (err : thrown).

(** Reading a property of [null] or [undefined]. *)
Definition typeError : thrown :=
  ErrorObject "TypeError: Cannot read property of undefined".

(** [err.stack || err]: the stack where it is a non-empty string, the value
    itself where [err.stack] is falsey; reading [stack] of [null] or
    [undefined] throws. *)
Definition stackOrErr (err : thrown) : result logged :=
  match err with
  | ErrorObject stack =>
      Ok (if String.eqb stack "" then Value err else Text stack)
  | Primitive _ => Ok (Value err)
  | Nullish => Throw typeError
  end.

(** The stubbed commands resolve to an object literal. *)
Inductive json : Type :=
| JObject (fields : list member)
with member : Type :=
| Member (name : string) (value : json).

(** The line feed of the template strings. *)
Definition nl : string := String (ascii_of_nat 10) EmptyString.

End Js.

Import Js.

(** ** Tests, browser configurations and the host *)

(** [test.hermioneCtx] *)
Record hermioneCtx : Type := HermioneCtx {
  ctx_usedRefPaths : option (list string)
}.

(** A mocha test object, by the fields the plugin reads or writes; [None] is
    an absent ([undefined]) field. *)
Record test : Type := Test {
  file : string;
  pending : option bool;
  silentSkip : option bool;
  ctx : option hermioneCtx
}.

(** [test.hermioneCtx.usedRefPaths = used] *)
Definition withUsed (t : test) (used : option (list string)) : test :=
  Test (file t) (pending t) (silentSkip t) (Some (HermioneCtx used)).

(** Test objects are shared and mutated in place: they live in a store and
    are passed around by reference. *)
Definition testref : Type := nat.
Definition store : Type := testref → test.

(** [screenshotsDir] of a browser configuration: a string or a function of
    the test. *)
Inductive screenshotsDirOption : Type :=
| Dir (dir : string)
| DirFn (fn : test → string).

(** [hermione.config.forBrowser(browserId)] *)
Record browserConfig : Type := BrowserConfig {
  screenshotsDir : screenshotsDirOption;
  getScreenshotPath : test → string → result string
}.

(** What the plugin takes from node and from hermione.  [path_resolve] is
    [path.resolve] on its argument list, [eventEmitterKeys] is
    [Object.keys(EventEmitter.prototype)], and [getTestContext] is
    [mocha.getTestContext] of lib/utils/mocha.js, from a runnable (a test or
    a hook) to the test it belongs to. *)
Record env (runnable : Type) : Type := Env {
  cwd : string;
  path_resolve : list string → string;
  eventEmitterKeys : list string;
  getTestContext : runnable → testref;
  forBrowser : string → browserConfig
}.
Arguments Env {runnable}.
Arguments cwd {runnable}.
Arguments path_resolve {runnable}.
Arguments eventEmitterKeys {runnable}.
Arguments getTestContext {runnable}.
Arguments forBrowser {runnable}.

(** Browser ids are used as property names of a plain object that is written
    with [_.set] and read with [obj[browserId]].  On an id with no [.] and no
    [[] that does not name a member of [Object.prototype], the two are the
    insertion and the lookup of a map; [plainKey] recognises these ids. *)
Definition objectPrototypeKeys : list string :=
  ["constructor"; "__defineGetter__"; "__defineSetter__"; "hasOwnProperty";
   "__lookupGetter__"; "__lookupSetter__"; "isPrototypeOf";
   "propertyIsEnumerable"; "toString"; "valueOf"; "__proto__";
   "toLocaleString"].

Fixpoint hasChar (c : ascii) (s : string) : bool :=
  match s with
  | EmptyString => false
  | String c' rest => Ascii.eqb c c' || hasChar c rest
  end.

Definition plainKey (browserId : string) : bool :=
  negb (hasChar "." browserId) && negb (hasChar "[" browserId)
  && bool_decide (browserId ∉ objectPrototypeKeys).

(** [genScreenPattern(pattern)] *)
Definition genScreenPattern {runnable} (e : env runnable) (pattern : string) : string :=
  path_resolve e [pattern; "**"; "*.png"].

(** The plugin options object [opts], shared by the command and its handlers:
    [screenshotPaths] as configured ([null], a string or an array of
    strings), the accumulated [usedRefPaths] (absent until first written) and
    the [runCleanScreenshots] flag. *)
Inductive screenshotPathsOption : Type :=
| PathsNull
| PathsString (pattern : string)
| PathsArray (patterns : list string).

Record opts : Type := Opts {
  screenshotPaths : screenshotPathsOption;
  usedRefPaths : option (list string);
  runCleanScreenshots : bool
}.

(** [[].concat(value)]: an array is spread, any other value is one entry. *)
Definition concatValue (value : screenshotPathsOption) : list (option string) :=
  match value with
  | PathsNull => [None]
  | PathsString pattern => [Some pattern]
  | PathsArray patterns => map Some patterns
  end.

(** ** The master handlers: [subscribeOnMasterEvents] *)

Module Master.

(** What hermione emits while it runs: AFTER_TESTS_READ with a collection
    ([getBrowsers()] and the pairs [eachTest] enumerates) and TEST_END with
    the finished runnable. *)
Inductive hostEvent (runnable : Type) : Type :=
| AfterTestsRead (browsers : list string) (eachTest : list (testref * string))
| TestEnd (finished : runnable).
Arguments AfterTestsRead {runnable} browsers eachTest.
Arguments TestEnd {runnable} finished.

(** The state the handlers share with the command: the [screenPatterns]
    array they push on, [opts], and the test objects. *)
Record state : Type := State {
  screenPatterns : list string;
  options : opts;
  tests : store
}.

Section Handlers.
Context {runnable : Type} (e : env runnable).

(** The [reduce] over [collection.getBrowsers()]: a browser with a
    function is remembered in [screenDirFns], a browser with a string
    pushes its pattern.  [screenDirFns] is the object built by [_.set]
    and read by [screenDirFns[browserId]], a map from browser ids to
    functions: this is what the two do on ids that are plain property
    names (see [plainKey]). *)
Definition reduceBrowser (acc : gmap string (test → string) * list string)
    (browserId : string) : gmap string (test → string) * list string :=
  match screenshotsDir (forBrowser e browserId) with
  | DirFn fn => (<[browserId := fn]> acc.1, acc.2)
  | Dir dir =>
      let pattern := genScreenPattern e (path_resolve e [cwd e; dir]) in
      (acc.1, acc.2 ++ [pattern])
  end.

Definition reduceBrowsers (browsers : list string) (patterns : list string)
  : gmap string (test → string) * list string :=
  foldl reduceBrowser (∅, patterns) browsers.

(** [if (test.pending) { test.pending = false; test.silentSkip = false; }] *)
Definition isPending (t : test) : bool :=
  match pending t with Some true => true | _ => false end.

Definition enabled (t : test) : test :=
  Test (file t) (Some false) (Some false) (ctx t).

(** The callback of [collection.eachTest]. *)
Definition visitTest (screenDirFns : gmap string (test → string))
    (acc : list string * store) (pair : testref * string)
  : list string * store :=
  let '(t, browserId) := pair in
  let patterns :=
    match screenDirFns !! browserId with
    | Some fn => acc.1 ++ [genScreenPattern e (fn (acc.2 t))]
    | None => acc.1
    end in
  let tests :=
    if isPending (acc.2 t) then <[t := enabled (acc.2 t)]> acc.2 else acc.2 in
  (patterns, tests).

Definition onAfterTestsRead (browsers : list string)
    (eachTest : list (testref * string)) (s : state) : state :=
  let '(screenDirFns, patterns) := reduceBrowsers browsers (screenPatterns s) in
  let '(patterns', tests') := foldl (visitTest screenDirFns) (patterns, tests s) eachTest in
  State patterns' (options s) tests'.

(** [_.get(context, 'hermioneCtx.usedRefPaths')]: [undefined] when either
    step is absent. *)
Definition getUsedRefPaths (context : test) : option (list string) :=
  match ctx context with
  | Some c => ctx_usedRefPaths c
  | None => None
  end.

(** The TEST_END handler.  An array is truthy whatever its length, and
    [opts.usedRefPaths || []] is the empty array only when the field is
    absent. *)
Definition onTestEnd (finished : runnable) (s : state) : state :=
  let context := tests s (getTestContext e finished) in
  match getUsedRefPaths context with
  | Some paths =>
      let o := options s in
      State (screenPatterns s)
            (Opts (screenshotPaths o)
                  (Some (default [] (usedRefPaths o) ++ paths))
                  (runCleanScreenshots o))
            (tests s)
  | None => s
  end.

Definition handle (s : state) (ev : hostEvent runnable) : state :=
  match ev with
  | AfterTestsRead browsers eachTest => onAfterTestsRead browsers eachTest s
  | TestEnd finished => onTestEnd finished s
  end.

(** *** The derived patterns, as the specification describes them

    A browser whose directory is a string contributes the pattern of that
    directory, resolved from the working directory, once for its entry in
    [getBrowsers()]; a browser whose directory is a function contributes,
    for every enumerated pair with that browser, the pattern of the directory
    the function gives for the test.  The function is handed the test object
    as it is when the pair is visited: as it was before the pass, or
    [visited] when an earlier pair carried the same test. *)
Definition visited (t : test) : test :=
  if isPending t then enabled t else t.

Definition fixedPattern (browserId : string) : option string :=
  match screenshotsDir (forBrowser e browserId) with
  | Dir dir => Some (genScreenPattern e (path_resolve e [cwd e; dir]))
  | DirFn _ => None
  end.

Definition fnPattern (browsers : list string) (t : test) (browserId : string)
  : option string :=
  if decide (browserId ∈ browsers) then
    match screenshotsDir (forBrowser e browserId) with
    | DirFn fn => Some (genScreenPattern e (fn t))
    | Dir _ => None
    end
  else None.

Fixpoint fnPatterns (browsers : list string) (tests : store)
    (seen : list testref) (eachTest : list (testref * string)) : list string :=
  match eachTest with
  | [] => []
  | (t, browserId) :: rest =>
      let object := if decide (t ∈ seen) then visited (tests t) else tests t in
      option_list (fnPattern browsers object browserId)
        ++ fnPatterns browsers tests (t :: seen) rest
  end.

Definition derivedPatterns (browsers : list string) (tests : store)
    (eachTest : list (testref * string)) : list string :=
  omap fixedPattern browsers ++ fnPatterns browsers tests [] eachTest.

End Handlers.

End Master.

(** ** The worker handler: [subscribeOnWorkerEvents] *)

Module Worker.

(** What [browser.addCommand] is given as the command: the stub
    [async () => ({value: {}})], or the [assertView] replacement, which
    closes over the browser configuration. *)
Inductive command : Type :=
| Stub
| AssertView (browserConfig : browserConfig).

(** A browser session: the enumerable own keys of its prototype
    ([Object.keys(proto)]), its [executionContext], and the commands
    installed on it through [addCommand]. *)
Record browser (runnable : Type) : Type := Browser {
  protoKeys : list string;
  executionContext : runnable;
  installed : gmap string command
}.
Arguments Browser {runnable}.
Arguments protoKeys {runnable}.
Arguments executionContext {runnable}.
Arguments installed {runnable}.

(** [browser.addCommand(name, fn, true)], the session's own installer: the
    command takes the place of whatever [name] was. *)
Definition addCommand {runnable} (name : string) (fn : command)
    (b : browser runnable) : browser runnable :=
  Browser (protoKeys b) (executionContext b) (<[name := fn]> (installed b)).

(** What a stubbed command resolves to: [{value: {}}]. *)
Definition stubValue : json := JObject [Member "value" (JObject [])].

(** The calls the [assertView] replacement makes. *)
Inductive effect (runnable : Type) : Type :=
| CallGetTestContext (context : runnable)
| CallGetScreenshotPath (t : testref) (state : string).
Arguments CallGetTestContext {runnable} context.
Arguments CallGetScreenshotPath {runnable} t state.

Section Handlers.
Context {runnable : Type} (e : env runnable).

Definition reservedCommands : list string :=
  eventEmitterKeys e ++ ["addCommand"; "assertView"; "executionContext"].

(** [reservedCommands.includes(command) || command.startsWith('_')] *)
Definition rejected (command : string) : bool :=
  bool_decide (command ∈ reservedCommands) || String.prefix "_" command.

(** [_.reject(Object.keys(proto), ...)] *)
Definition commandsList (b : browser runnable) : list string :=
  filter (λ command, rejected command = false) (protoKeys b).

(** The NEW_BROWSER handler: the session it leaves and the [addCommand]
    calls it made, in order. *)
Definition onNewBrowser (o : opts) (b : browser runnable) (browserId : string)
  : browser runnable * list (string * command) :=
  if negb (runCleanScreenshots o) then (b, [])
  else
    let stubbed := foldl (λ b commandName, addCommand commandName Stub b)
                         b (commandsList b) in
    let browserConfig := forBrowser e browserId in
    (addCommand "assertView" (AssertView browserConfig) stubbed,
     map (λ commandName, (commandName, Stub)) (commandsList b)
       ++ [("assertView", AssertView browserConfig)]).

(** One call [browser.assertView(state)] of the installed replacement, on
    the store of test objects: the calls it makes and the store it
    leaves, or what it throws. *)
Definition assertView (browserConfig : browserConfig) (b : browser runnable)
    (tests : store) (state : string)
  : list (effect runnable) * result store :=
  let t := getTestContext e (executionContext b) in
  let calls := [CallGetTestContext (executionContext b);
                CallGetScreenshotPath t state] in
  match getScreenshotPath browserConfig (tests t) state with
  | Throw err => (calls, Throw err)
  | Ok refPath =>
      match ctx (tests t) with
      | None => (calls, Throw typeError)
      | Some c =>
          let used := default [] (ctx_usedRefPaths c) ++ [refPath] in
          (calls, Ok (<[t := withUsed (tests t) (Some used)]> tests))
      end
  end.

(** A test calling [assertView] with one state after another; a call that
    throws ends the test. *)
Fixpoint assertViews (browserConfig : browserConfig) (b : browser runnable)
    (tests : store) (states : list string)
  : list (effect runnable) * result store :=
  match states with
  | [] => ([], Ok tests)
  | state :: rest =>
      match assertView browserConfig b tests state with
      | (calls, Ok tests') =>
          let '(calls', r) := assertViews browserConfig b tests' rest in
          (calls ++ calls', r)
      | (calls, Throw err) => (calls, Throw err)
      end
  end.

(** Calling a command the plugin installed: what it calls, and what the
    promise resolves to ([None] for [undefined]) with the store it leaves. *)
Definition invoke (fn : command) (b : browser runnable) (tests : store)
    (state : string)
  : list (effect runnable) * result (option json * store) :=
  match fn with
  | Stub => ([], Ok (Some stubValue, tests))
  | AssertView browserConfig =>
      match assertView browserConfig b tests state with
      | (calls, Ok tests') => (calls, Ok (None, tests'))
      | (calls, Throw err) => (calls, Throw err)
      end
  end.

End Handlers.

End Worker.

(** ** The "clean-screenshots" command *)

Module Action.
Import Lodash Master.

(** The calls the command makes to its collaborators. *)
Inductive event : Type :=
| Debug (text : string)
| LoggerLog (text : string)
| LoggerError (arg : logged)
| HermioneRun
| ExpandPaths (patterns : list string) (formats : string)
| FsStat (path : string)
| Prompt (name : string) (message : string)
| FsUnlink (path : string)
| ProcessExit (code : Z).

(** How the collaborators answer: what [hermione.run()] emits before it
    settles and how it settles, [glob.expandPaths], [fs.stat] (the [size]
    of the stats, a whole number of bytes), [inquirer.prompt] (the answer
    under the question's name), [fs.unlink] and [filesize]. *)
Record collaborators (runnable : Type) : Type := Collaborators {
  run : list (hostEvent runnable) * result unit;
  expandPaths : list string → result (list string);
  stat : string → result Z;
  prompt : string → result bool;
  unlink : string → result unit;
  filesize : Z → string
}.
Arguments Collaborators {runnable}.
Arguments run {runnable}.
Arguments expandPaths {runnable}.
Arguments stat {runnable}.
Arguments prompt {runnable}.
Arguments unlink {runnable}.
Arguments filesize {runnable}.

(** The body of the [try] block runs in a monad that records the calls and
    stops at the first thrown value. *)
Definition M (A : Type) : Type := (list event * result A)%type.

Definition ret {A} (a : A) : M A := ([], Ok a).

Definition bind {A B} (m : M A) (k : A → M B) : M B :=
  match m with
  | (calls, Ok a) => let '(calls', r) := k a in (calls ++ calls', r)
  | (calls, Throw err) => (calls, Throw err)
  end.

Notation "'do' x <- m ; k" := (bind m (λ x, k))
  (at level 10, x name, m at level 100, k at level 200).

Definition emit (ev : event) : M unit := ([ev], Ok tt).

(** A call to a collaborator, awaited. *)
Definition await {A} (ev : event) (settled : result A) : M A := ([ev], settled).

(** [Promise.all]-like settling: every value, or the reason of a rejected
    entry (the first in list order; which rejection lands first in time is
    the host's business). *)
Fixpoint settleAll {A} (settled : list (result A)) : result (list A) :=
  match settled with
  | [] => Ok []
  | Ok a :: rest =>
      match settleAll rest with
      | Ok values => Ok (a :: values)
      | Throw err => Throw err
      end
  | Throw err :: _ => Throw err
  end.

(** An expression that may throw, evaluated; no call is recorded. *)
Definition eval {A} (value : result A) : M A := ([], value).

(** The reason a recorded call to a collaborator was rejected with, if it
    was. *)
Definition reason {A} (settled : result A) : option thrown :=
  match settled with Ok _ => None | Throw err => Some err end.

(** The [catch] block, [logger.error(err.stack || err); process.exit(1)].
    The argument is evaluated before [logger.error] is called: where reading
    [err.stack] throws, neither call is made and the [TypeError] leaves the
    block. *)
Definition catchBlock (err : thrown) : M unit :=
  do arg <- eval (stackOrErr err);
  do _ <- emit (LoggerError arg);
  emit (ProcessExit 1).
Arguments catchBlock : simpl never.

(** [pMap(input, mapper)] with the default (unbounded) concurrency: the
    mapper is called on every entry before any of the calls settles. *)
Definition pMap {A} (call : string → event) (mapper : string → result A)
    (input : list string) : M (list A) :=
  (map call input, settleAll (map mapper input)).

Section Command.
Context {runnable : Type} (c : collaborators runnable) (e : env runnable).

(** The first three statements of the [try] block. *)
Definition start (o : opts) (tests : store) : state :=
  State (compact (concatValue (screenshotPaths o)))
        (Opts (screenshotPaths o) (usedRefPaths o) true)
        tests.

(** The state once [hermione.run()] has emitted its events to the two
    handlers. *)
Definition afterRun (o : opts) (tests : store) : state :=
  foldl (handle e) (start o tests) (run c).1.

Definition unusedRefPaths (readRefPaths : list string) (s : state) : list string :=
  difference readRefPaths (usedRefPaths (options s)).

(** From [_.uniq(screenPatterns)] to the end of the [try] block. *)
Definition reconcile (s : state) : M unit :=
  let screenPatterns := uniq (screenPatterns s) in
  do _ <- emit (Debug ("Try to find screen paths on file system by patterns:"
                        +:+ nl +:+ join nl screenPatterns));
  do readRefPaths <- await (ExpandPaths screenPatterns ".png")
                           (expandPaths c screenPatterns);
  if isEmpty readRefPaths then
    emit (LoggerError (Text ("Screenshot paths not found on file system by patterns:"
                             +:+ nl +:+ join nl screenPatterns)))
  else
    do _ <- emit (Debug ("Found screen paths on file system:"
                          +:+ nl +:+ join nl readRefPaths));
    let unused := unusedRefPaths readRefPaths s in
    if isEmpty unused then
      emit (LoggerLog ("Unused screenshots not found by patterns: "
                       +:+ join "," screenPatterns))
    else
      do _ <- emit (Debug ("Found unused screenshots:" +:+ nl +:+ join nl unused));
      do stats <- pMap FsStat (stat c) unused;
      let bytes := foldl Z.add 0%Z stats in
      do _ <- emit (LoggerLog ("Found " +:+ pretty (length unused)
                               +:+ " unused screenshots with total size "
                               +:+ filesize c bytes));
      do show <- await (Prompt "show" "Show list of unused screenshosts?")
                       (prompt c "show");
      do _ <- (if show : bool
               then emit (LoggerLog ("List of unused screenshots:"
                                     +:+ nl +:+ join nl unused))
               else ret tt);
      do remove <- await (Prompt "remove" "Remove unused screenshots?")
                         (prompt c "remove");
      if negb remove then
        emit (LoggerLog "Deletion of unused screenshots was canceled")
      else
        do _ <- pMap FsUnlink (unlink c) unused;
        emit (LoggerLog "Deletion of unused screenshots was succeeded").

(** The [try] block. *)
Definition body (o : opts) (tests : store) : M unit :=
  do _ <- await HermioneRun (run c).2;
  reconcile (afterRun o tests).

(** The action of the command: the [try] block and its [catch]; the calls
    it makes. *)
Definition action (o : opts) (tests : store) : list event :=
  match body o tests with
  | (calls, Ok _) => calls
  | (calls, Throw err) => calls ++ (catchBlock err).1
  end.

(** What the promise of the action is rejected with, where the [catch]
    block throws itself. *)
Definition rejection (o : opts) (tests : store) : option thrown :=
  match body o tests with
  | (_, Ok _) => None
  | (_, Throw err) => reason (catchBlock err).2
  end.

End Command.

(** Reading a trace: the paths [fs.stat] and [fs.unlink] were called on, the
    questions asked, the exit codes, and what the logger was given. *)
Definition statCalls (calls : list event) : list string :=
  omap (λ ev, match ev with FsStat path => Some path | _ => None end) calls.

Definition unlinkCalls (calls : list event) : list string :=
  omap (λ ev, match ev with FsUnlink path => Some path | _ => None end) calls.

Definition promptCalls (calls : list event) : list string :=
  omap (λ ev, match ev with Prompt name _ => Some name | _ => None end) calls.

Definition exitCodes (calls : list event) : list Z :=
  omap (λ ev, match ev with ProcessExit code => Some code | _ => None end) calls.

Definition expandCalls (calls : list event) : list (list string) :=
  omap (λ ev, match ev with ExpandPaths patterns _ => Some patterns | _ => None end) calls.

(** The reason a recorded call to a collaborator was rejected with, if it
    was. *)
Definition thrownBy {runnable} (c : collaborators runnable) (ev : event)
  : option thrown :=
  match ev with
  | HermioneRun => reason (run c).2
  | ExpandPaths patterns _ => reason (expandPaths c patterns)
  | FsStat path => reason (stat c path)
  | Prompt name _ => reason (prompt c name)
  | FsUnlink path => reason (unlink c path)
  | Debug _ | LoggerLog _ | LoggerError _ | ProcessExit _ => None
  end.

Definition logged_log (calls : list event) : list string :=
  omap (λ ev, match ev with LoggerLog text => Some text | _ => None end) calls.

Definition logged_error (calls : list event) : list logged :=
  omap (λ ev, match ev with LoggerError arg => Some arg | _ => None end) calls.

End Action.

(** ** The option validators of lib/config/index.js *)

Module Config.

(** A configuration value, as it comes from the options object or from
    [JSON.parse] of an environment variable or a command-line flag.  Numbers
    are kept by a whole value; the validators never look at them. *)
#[warnings="-register-all"]
Inductive value : Type :=
| VUndefined
| VNull
| VBoolean (b : bool)
| VNumber (n : Z)
| VString (s : string)
| VArray (items : list value)
| VObject (fields : list field)
with field : Type :=
| Field (name : string) (content : value).

(** [typeof value] *)
Definition typeOf (v : value) : string :=
  match v with
  | VUndefined => "undefined"
  | VNull | VArray _ | VObject _ => "object"
  | VBoolean _ => "boolean"
  | VNumber _ => "number"
  | VString _ => "string"
  end.

(** [_.isBoolean], [_.isString], [_.isArray], [_.isNull] *)
Definition isBoolean (v : value) : bool :=
  match v with VBoolean _ => true | _ => false end.

Definition isString (v : value) : bool :=
  match v with VString _ => true | _ => false end.

Definition isArray (v : value) : bool :=
  match v with VArray _ => true | _ => false end.

Definition isNull (v : value) : bool :=
  match v with VNull => true | _ => false end.

(** What a validator throws: [new TypeError(message)] or
    [new Error(message)]. *)
Inductive failure : Type :=
| TypeError (message : string)
| Error (message : string).

(** A validator returns nothing, or throws. *)
Inductive outcome : Type :=
| Returns
| Throws (err : failure).

(** The double quote of the messages. *)
Definition quote : string := String (ascii_of_nat 34) EmptyString.

(** [assertType(name, validationFn, type)] *)
Definition assertType (name : string) (validationFn : value → bool)
    (type : string) (v : value) : outcome :=
  if negb (validationFn v) then
    Throws (TypeError (quote +:+ name +:+ quote +:+ " option must be " +:+ type
                       +:+ ", but got " +:+ typeOf v))
  else Returns.

(** [assertBoolean(name)] *)
Definition assertBoolean (name : string) : value → outcome :=
  assertType name isBoolean "boolean".

(** [value.every(_.isString)] on an array *)
Definition everyIsString (v : value) : bool :=
  match v with
  | VArray items => forallb isString items
  | _ => false
  end.

Section Validators.
(** [JSON.stringify] *)
Context (stringify : value → string).

(** [assertStringOrArrayOfStrings(value, name)] *)
Definition assertStringOrArrayOfStrings (v : value) (name : string) : outcome :=
  if negb (isArray v && everyIsString v) && negb (isString v) then
    Throws (Error (quote +:+ name +:+ quote
                   +:+ " option must be a string or an array of strings but got "
                   +:+ stringify v))
  else Returns.

(** The [validate] of the [enabled] option. *)
Definition validateEnabled : value → outcome := assertBoolean "enabled".

(** The [validate] of the [screenshotPaths] option. *)
Definition validateScreenshotPaths (v : value) : outcome :=
  if isNull v then Returns
  else assertStringOrArrayOfStrings v "screenshotPaths".

End Validators.

(** The strings of an array of strings. *)
Definition asString (v : value) : option string :=
  match v with VString s => Some s | _ => None end.

(** A [screenshotPaths] value as the command reads it from [opts]. *)
Definition asScreenshotPaths (v : value) : option screenshotPathsOption :=
  match v with
  | VNull => Some PathsNull
  | VString s => Some (PathsString s)
  | VArray items => PathsArray <$> mapM asString items
  | _ => None
  end.

End Config.

(** ** What a run reports *)

(** The paths the finished tests of a run carry, in the order the TEST_END
    events arrive. *)
Definition reportedPaths {runnable} (e : env runnable) (tests : store)
    (events : list (Master.hostEvent runnable)) : list string :=
  flat_map (λ ev, match ev with
                  | Master.TestEnd finished =>
                      default [] (Master.getUsedRefPaths
                                    (tests (getTestContext e finished)))
                  | Master.AfterTestsRead _ _ => []
                  end) events.

(** ** Concrete runs

    The collaborators of the repository's test-suite, for the examples
    below. *)

Module Scenario.
Import Master Worker Action.

(** [path.resolve] on segments that have no [.], no [..] and no trailing
    slash: a segment that starts with a slash restarts the path, any other is
    appended to it. *)
Fixpoint resolveFrom (base : string) (segments : list string) : string :=
  match segments with
  | [] => base
  | segment :: rest =>
      resolveFrom (if String.prefix "/" segment then segment
                   else base +:+ "/" +:+ segment) rest
  end.

(** [Object.keys(EventEmitter.prototype)] of node. *)
Definition nodeEmitterKeys : list string :=
  ["_events"; "_eventsCount"; "_maxListeners"; "setMaxListeners";
   "getMaxListeners"; "emit"; "addListener"; "on"; "prependListener"; "once";
   "prependOnceListener"; "removeListener"; "off"; "removeAllListeners";
   "listeners"; "rawListeners"; "listenerCount"; "eventNames"].

(** A resolver that knows two states. *)
Definition refPath (t : test) (state : string) : result string :=
  if String.eqb state "plain1" then Ok "/ref/1"
  else if String.eqb state "plain2" then Ok "/ref/2"
  else Throw (ErrorObject "Error: no such state").

(** [yabro] keeps its screenshots in one directory, [fnbro] next to the file
    of the test. *)
Definition config (browserId : string) : browserConfig :=
  if String.eqb browserId "yabro" then BrowserConfig (Dir "yabro/screens") refPath
  else if String.eqb browserId "fnbro"
       then BrowserConfig (DirFn (λ t, file t +:+ "/screens")) refPath
       else BrowserConfig (Dir "/default-dir") refPath.

(** Runnables are the tests themselves, as with the test-suite's stub of
    [getTestContext]. *)
Definition hermione : env testref :=
  Env "/dir" (resolveFrom "/dir") nodeEmitterKeys id config.

(** Three test objects: a skipped one, one that used [plain.png], and one
    whose context carries an empty list. *)
Definition suite : store :=
  λ r, match r with
       | 0 => Test "/dir/file1" (Some true) None (Some (HermioneCtx None))
       | 1 => Test "/dir/file2" (Some false) None
                   (Some (HermioneCtx (Some ["/screens/plain.png"])))
       | 2 => Test "/dir/file3" None None (Some (HermioneCtx (Some [])))
       | _ => Test "/dir/file4" None None None
       end.

Definition sizes (path : string) : result Z :=
  if String.eqb path "/screens/plain.png" then Ok 100%Z else Ok 200%Z.

(** A run that emits [events], finds [found], sizes with [sizes], declines to
    list and answers [remove]; every unlink settles as [unlinked]. *)
Definition world (events : list (hostEvent testref)) (found : list string)
    (remove : bool) (unlinked : result unit) : collaborators testref :=
  Collaborators (events, Ok ())
                (λ _, Ok found)
                sizes
                (λ name, Ok (String.eqb name "remove" && remove))
                (λ _, unlinked)
                (λ bytes, pretty bytes +:+ " B").

Definition screens : opts := Opts (PathsArray ["/screens/**"]) None false.

Definition bothScreens : list string :=
  ["/screens/plain.png"; "/screens/hover.png"].

(** A session with one ordinary command, one private field and the emitter's
    [on]. *)
Definition session : browser testref :=
  Browser ["broCommand"; "_private1"; "on"; "executionContext"; "addCommand";
           "assertView"]
          0 ∅.

End Scenario.

(** * Properties *)

Import Lodash Master Action.

(** ** The lodash helpers *)

Section LodashFacts.
Implicit Types (array values result : list string) (x : string).

Lemma elem_of_baseDifference array values x :
  x ∈ baseDifference array values ↔ x ∈ array ∧ x ∉ values.
Proof.
  induction array as [|y array IH]; simpl.
  - split; [intros H; inversion H | intros [H _]; inversion H].
  - destruct (decide (y ∈ values)) as [Hy|Hy].
    + rewrite IH, elem_of_cons. split; [tauto|].
      intros [[->|Hx] Hn]; [contradiction | tauto].
    + rewrite !elem_of_cons, IH. split.
      * intros [->|[Hx Hn]]; tauto.
      * intros [[->|Hx] Hn]; tauto.
Qed.

Lemma baseDifference_nil array values :
  baseDifference array values = [] ↔ ∀ x, x ∈ array → x ∈ values.
Proof.
  split.
  - intros Hnil x Hx. destruct (decide (x ∈ values)) as [|Hn]; [done|].
    assert (x ∈ baseDifference array values) as Hin
      by (apply elem_of_baseDifference; done).
    rewrite Hnil in Hin. inversion Hin.
  - intros Hsub. destruct (baseDifference array values) as [|y rest] eqn:E; [done|].
    assert (y ∈ baseDifference array values) as Hin by (rewrite E; left).
    apply elem_of_baseDifference in Hin as [Hy Hn]. destruct Hn. auto.
Qed.

Lemma baseDifference_none array : baseDifference array [] = array.
Proof.
  induction array as [|y array IH]; simpl; [done|].
  destruct (decide (y ∈ [])) as [Hy|_]; [inversion Hy | by rewrite IH].
Qed.

Lemma elem_of_baseUniq result array x :
  x ∈ baseUniq result array ↔ x ∈ result ∨ x ∈ array.
Proof.
  revert result. induction array as [|y array IH]; intros result; simpl.
  - split; [tauto | intros [H|H]; [done | inversion H]].
  - destruct (decide (y ∈ result)) as [Hy|Hy]; rewrite IH.
    + rewrite elem_of_cons. split; [tauto|]. intros [H|[->|H]]; tauto.
    + rewrite elem_of_app, list_elem_of_singleton, elem_of_cons. tauto.
Qed.

Lemma NoDup_baseUniq result array :
  NoDup result → NoDup (baseUniq result array).
Proof.
  revert result. induction array as [|y array IH]; intros result Hnd; simpl; [done|].
  destruct (decide (y ∈ result)) as [Hy|Hy]; apply IH; [done|].
  apply NoDup_app. split_and!; [done| |apply NoDup_singleton].
  intros z Hz Hz'. apply list_elem_of_singleton in Hz'. by subst.
Qed.

Lemma elem_of_uniq array x : x ∈ uniq array ↔ x ∈ array.
Proof.
  unfold uniq. rewrite elem_of_baseUniq. split; [|tauto].
  intros [H|H]; [inversion H | done].
Qed.

Lemma NoDup_uniq array : NoDup (uniq array).
Proof. apply NoDup_baseUniq, NoDup_nil_2. Qed.

Lemma elem_of_compact (array : list (option string)) x :
  x ∈ compact array ↔ Some x ∈ array ∧ x ≠ "".
Proof.
  induction array as [|[y|] array IH]; simpl.
  - split; [intros H; inversion H | intros [H _]; inversion H].
  - destruct (String.eqb_spec y "") as [->|Hy]; simpl.
    + rewrite IH, elem_of_cons. split; [tauto|].
      intros [[[= ->]|H] Hne]; [done | tauto].
    + rewrite !elem_of_cons, IH. split.
      * intros [->|[H Hne]]; [split; [by left | done] | tauto].
      * intros [[[= ->]|H] Hne]; tauto.
  - rewrite IH, elem_of_cons. split; [tauto|]. intros [[?|H] Hne]; [done | tauto].
Qed.

Lemma compact_Some (patterns : list string) :
  compact (map Some patterns) = filter (λ pattern, pattern ≠ "") patterns.
Proof.
  induction patterns as [|y patterns IH]; simpl; [done|].
  destruct (String.eqb_spec y "") as [->|Hy]; simpl.
  - rewrite filter_cons_False; [done | intros H; by apply H].
  - by rewrite filter_cons_True, IH.
Qed.

End LodashFacts.

Example uniq_first_occurrence :
  uniq ["a"; "b"; "a"; "c"; "b"] = ["a"; "b"; "c"].
Proof. reflexivity. Qed.

Example difference_keeps_order :
  difference ["x"; "y"; "z"; "y"] (Some ["z"]) = ["x"; "y"; "y"].
Proof. reflexivity. Qed.

(** ** The command, case by case *)

Section CommandFacts.
Context {runnable : Type} (c : collaborators runnable) (e : env runnable).
Implicit Types (o : opts) (tests : store) (s : state) (found : list string).

Local Opaque String.append pretty.

(** Settling a list of calls. *)
Lemma settleAll_Ok {A} (mapper : string → result A) (input : list string) :
  (∀ path, path ∈ input → ∃ a, mapper path = Ok a) →
  ∃ values, settleAll (map mapper input) = Ok values ∧ length values = length input.
Proof.
  induction input as [|p input IH]; intros Hok; simpl; [by exists []|].
  destruct (Hok p) as [a ->]; [left|].
  destruct IH as (values & -> & Hlen); [intros q Hq; apply Hok; by right|].
  exists (a :: values). simpl. by rewrite Hlen.
Qed.

Lemma settleAll_Throw {A} (mapper : string → result A) (input : list string) err :
  settleAll (map mapper input) = Throw err →
  ∃ path, path ∈ input ∧ mapper path = Throw err.
Proof.
  induction input as [|p input IH]; simpl; [done|].
  destruct (mapper p) as [a|err'] eqn:Hp.
  - destruct (settleAll (map mapper input)) as [values|err'']; [done|].
    intros [= ->]. destruct IH as (q & Hq & Hthrow); [done|].
    exists q. split; [by right | done].
  - intros [= ->]. exists p. split; [left | done].
Qed.

Lemma settleAll_Ok_inv {A} (mapper : string → result A) (input : list string) values :
  settleAll (map mapper input) = Ok values →
  ∀ path, path ∈ input → ∃ a, mapper path = Ok a.
Proof.
  revert values. induction input as [|p input IH]; intros values; simpl.
  - intros _ path H. inversion H.
  - destruct (mapper p) as [a|err'] eqn:Hp; [|done].
    destruct (settleAll (map mapper input)) as [vs|err'']; [|done].
    intros _ path [->|Hin]%elem_of_cons; [eauto | by eapply IH].
Qed.

(** What an observer sees of a mapped list of calls. *)
Lemma omap_map_None {A B C} (f : B → option C) (g : A → B) (l : list A) :
  (∀ a, f (g a) = None) → omap f (map g l) = [].
Proof.
  intros H. induction l as [|a l IH]; csimpl; [done|]. by rewrite H, IH.
Qed.

Lemma omap_map_Some {A B} (f : B → option A) (g : A → B) (l : list A) :
  (∀ a, f (g a) = Some a) → omap f (map g l) = l.
Proof.
  intros H. induction l as [|a l IH]; csimpl; [done|]. by rewrite H, IH.
Qed.

(** The calls of the [catch] block, and what an observer of other calls
    sees of them. *)
Lemma catchBlock_calls err :
  (catchBlock err).1 =
    match err with
    | ErrorObject stack =>
        [LoggerError (if String.eqb stack "" then Value err else Text stack);
         ProcessExit 1]
    | Primitive _ => [LoggerError (Value err); ProcessExit 1]
    | Nullish => []
    end.
Proof. by destruct err. Qed.

Lemma omap_catchBlock {C} (f : event → option C) err :
  (∀ arg, f (LoggerError arg) = None) → (∀ code, f (ProcessExit code) = None) →
  omap f (catchBlock err).1 = [].
Proof.
  intros Hlog Hexit. rewrite catchBlock_calls.
  destruct err; csimpl; by rewrite ?Hlog, ?Hexit.
Qed.

Ltac observe :=
  unfold statCalls, unlinkCalls, promptCalls, exitCodes, expandCalls,
         logged_error;
  repeat progress
    (csimpl;
     rewrite ?omap_app, ?(omap_map_Some _ FsStat), ?(omap_map_Some _ FsUnlink),
             ?(omap_map_None _ FsStat), ?(omap_map_None _ FsUnlink),
             ?omap_catchBlock by done);
  rewrite ?app_nil_r; try done.





Ltac find_call :=
  solve [ apply list_elem_of_here
        | apply list_elem_of_fmap_2; assumption
        | apply list_elem_of_further; find_call
        | apply elem_of_app; left; find_call
        | apply elem_of_app; right; find_call ].

Lemma isEmpty_true found : isEmpty found = true ↔ found = [].
Proof. by destruct found. Qed.

(** C3.  When the expansion of the patterns returns no path, or when none of
    the paths it returns is unused, the command logs the matching "not found"
    message last (through [logger.error] in the first case, [logger.log] in
    the second), completes without a thrown value and without an exit, and
    has made no call to [fs.stat], [inquirer.prompt] or [fs.unlink]. *)
Theorem nothing_to_clean o tests found :
  (run c).2 = Ok tt →
  let s := afterRun c e o tests in
  let patterns := uniq (screenPatterns s) in
  expandPaths c patterns = Ok found →
  found = [] ∨ unusedRefPaths found s = [] →
  let calls := action c e o tests in
  last calls = Some
    (if isEmpty found
     then LoggerError (Text ("Screenshot paths not found on file system by patterns:"
                             +:+ nl +:+ join nl patterns))
     else LoggerLog ("Unused screenshots not found by patterns: "
                     +:+ join "," patterns))
  ∧ (body c e o tests).2 = Ok tt
  ∧ statCalls calls = [] ∧ promptCalls calls = []
  ∧ unlinkCalls calls = [] ∧ exitCodes calls = [].
Proof.
  intros Hrun s patterns Hexpand Hempty calls. subst calls.
  unfold action, body, reconcile, bind, await, emit.
  rewrite Hrun. fold s. fold patterns. rewrite Hexpand.
  destruct (isEmpty found) eqn:Hfound; [done|].
  destruct Hempty as [->|Hunused]; [done|].
  rewrite Hunused. done.
Qed.



(** Every run of the [try] block: either it completes, no recorded call was
    rejected and nothing exited, or it stops on the reason some recorded call
    was rejected with. *)
Lemma body_outcome o tests :
  match body c e o tests with
  | (calls, Ok _) =>
      exitCodes calls = [] ∧ Forall (λ ev, thrownBy c ev = None) calls
  | (calls, Throw err) =>
      exitCodes calls = [] ∧ ∃ ev, ev ∈ calls ∧ thrownBy c ev = Some err
  end.
Proof.
  unfold body, reconcile, bind, await, emit, pMap, ret.
  set (s := afterRun c e o tests). set (patterns := uniq (screenPatterns s)).
  destruct (run c).2 as [[]|err] eqn:Hrun; simpl.
  2:{ split; [done|]. exists HermioneRun. split; [find_call | by simpl; rewrite Hrun]. }
  destruct (expandPaths c patterns) as [found|err] eqn:Hexpand; simpl.
  2:{ split; [done|]. exists (ExpandPaths patterns ".png").
      split; [find_call | by simpl; rewrite Hexpand]. }
  destruct (isEmpty found).
  { simpl. split; [done|]. repeat constructor; simpl; by rewrite ?Hrun, ?Hexpand. }
  set (unused := unusedRefPaths found s).
  destruct (isEmpty unused).
  { simpl. split; [done|]. repeat constructor; simpl; by rewrite ?Hrun, ?Hexpand. }
  destruct (settleAll (map (stat c) unused)) as [sizes|err] eqn:Hstat.
  2:{ simpl. split; [observe|].
      apply settleAll_Throw in Hstat as (path & Hpath & Hthrow).
      exists (FsStat path). split; [|by simpl; rewrite Hthrow].
      find_call. }
  assert (Forall (λ ev, thrownBy c ev = None) (map FsStat unused)) as Hstats.
  { apply Forall_fmap, Forall_forall. intros path Hpath. simpl.
    destruct (settleAll_Ok_inv _ _ _ Hstat path Hpath) as [size ->]. done. }
  destruct (prompt c "show") as [show|err] eqn:Hshow.
  2:{ simpl. split; [observe|].
      exists (Prompt "show" "Show list of unused screenshosts?").
      split; [|by simpl; rewrite Hshow].
      find_call. }
  destruct (prompt c "remove") as [remove|err] eqn:Hremove.
  2:{ destruct show; simpl; (split; [observe|]);
        exists (Prompt "remove" "Remove unused screenshots?");
        (split; [find_call | by simpl; rewrite Hremove]). }
  destruct remove; simpl.
  - destruct (settleAll (map (unlink c) unused)) as [done_|err] eqn:Hunlink.
    + assert (Forall (λ ev, thrownBy c ev = None) (map FsUnlink unused)) as Hunlinks.
      { apply Forall_fmap, Forall_forall. intros path Hpath. simpl.
        destruct (settleAll_Ok_inv _ _ _ Hunlink path Hpath) as [[] ->]. done. }
      destruct show; simpl; (split; [observe|]);
        repeat first [ apply Forall_cons_2 | apply Forall_app_2 | apply Forall_nil_2
                     | assumption ];
        simpl; by rewrite ?Hrun, ?Hexpand, ?Hshow, ?Hremove.
    + apply settleAll_Throw in Hunlink as (path & Hpath & Hthrow).
      destruct show; simpl; (split; [observe|]);
        exists (FsUnlink path); (split; [find_call | by simpl; rewrite Hthrow]).
  - destruct show; simpl; (split; [observe|]);
      repeat first [ apply Forall_cons_2 | apply Forall_app_2 | apply Forall_nil_2
                   | assumption ];
      simpl; by rewrite ?Hrun, ?Hexpand, ?Hshow, ?Hremove.
Qed.

(** A run of the [try] block that stops on a thrown value has handed
    nothing to [logger.error]. *)
Lemma stopped_body_logs_no_error o tests err :
  (body c e o tests).2 = Throw err → logged_error (body c e o tests).1 = [].
Proof.
  unfold body, reconcile, bind, await, emit, pMap, ret.
  set (s := afterRun c e o tests).
  destruct (run c).2 as [[]|]; simpl; [|done].
  destruct (expandPaths c (uniq (screenPatterns s))) as [found|]; simpl; [|done].
  destruct (isEmpty found); [done|].
  set (unused := unusedRefPaths found s).
  destruct (isEmpty unused); [done|].
  destruct (settleAll (map (stat c) unused)),
    (prompt c "show") as [[]|], (prompt c "remove") as [[]|],
    (settleAll (map (unlink c) unused));
    simpl; try done; intros _; observe.
Qed.

(** The [catch] of the command, on every run.  If any call the command made
    (the run, the expansion, a stat, a question, an unlink) was rejected, the
    [try] block stopped on the reason [err'] of such a call, and:
    - where [err'] is an object with a non-empty [stack], the trace ends with
      [logger.error(stack)] and [process.exit(1)], the only exit;
    - where it is another value that is neither [null] nor [undefined], the
      trace ends with [logger.error(err')] and [process.exit(1)];
    - where it is [null] or [undefined], the [catch] block throws on
      [err.stack]: nothing is handed to [logger.error], nothing exits, and the
      action is rejected with the [TypeError].
    The [try] block completes exactly when no call was rejected, and then
    (cancelled, nothing found, or deleted) nothing exits and the action is
    not rejected. *)
Lemma single_error_boundary o tests :
  let calls := action c e o tests in
  (∀ ev err, ev ∈ calls → thrownBy c ev = Some err →
     ∃ before err' ev',
       ev' ∈ before ∧ thrownBy c ev' = Some err'
       ∧ match err' with
         | ErrorObject stack =>
             calls = before ++
               [LoggerError (if String.eqb stack "" then Value err' else Text stack);
                ProcessExit 1]
             ∧ exitCodes calls = [1%Z] ∧ rejection c e o tests = None
         | Primitive _ =>
             calls = before ++ [LoggerError (Value err'); ProcessExit 1]
             ∧ exitCodes calls = [1%Z] ∧ rejection c e o tests = None
         | Nullish =>
             calls = before ∧ logged_error calls = [] ∧ exitCodes calls = []
             ∧ rejection c e o tests = Some typeError
         end)
  ∧ ((body c e o tests).2 = Ok () ↔ ∀ ev, ev ∈ calls → thrownBy c ev = None)
  ∧ ((body c e o tests).2 = Ok () →
       exitCodes calls = [] ∧ rejection c e o tests = None).
Proof.
  intros calls. subst calls. unfold action, rejection.
  pose proof (body_outcome o tests) as Hbody.
  pose proof (stopped_body_logs_no_error o tests) as Hlogs.
  destruct (body c e o tests) as [calls [[]|err]]; simpl in *.
  - destruct Hbody as [Hexit Hnone]. rewrite Forall_forall in Hnone.
    split_and!; [|done..].
    intros ev err Hev Hthrown. rewrite (Hnone ev Hev) in Hthrown. done.
  - destruct Hbody as [Hexit (ev' & Hev' & Hthrown')].
    split_and!; [|split; [done|]|done].
    + intros _ _ _ _. exists calls, err, ev'. split_and!; [done..|].
      rewrite catchBlock_calls. unfold exitCodes in *.
      destruct err; rewrite ?omap_app, ?app_nil_r, ?Hexit; split_and!;
        try done.
      by apply (Hlogs Nullish).
    + intros Hnone. rewrite (Hnone ev') in Hthrown'; [done|].
      apply elem_of_app. by left.
Qed.

(** The calls of a run that got past [hermione.run()]: one expansion, of the
    deduplicated patterns, and a stat of every unused path among the found
    ones, whatever happens afterwards. *)
Lemma action_calls o tests :
  (run c).2 = Ok () →
  let s := afterRun c e o tests in
  expandCalls (action c e o tests) = [uniq (screenPatterns s)]
  ∧ ∀ found, expandPaths c (uniq (screenPatterns s)) = Ok found →
      statCalls (action c e o tests) = unusedRefPaths found s.
Proof.
  intros Hrun s.
  unfold action, body, reconcile, bind, await, emit, pMap, ret.
  rewrite Hrun. fold s.
  destruct (expandPaths c (uniq (screenPatterns s))) as [found|err]; simpl.
  2:{ split; [observe|]. intros found [=]. }
  destruct (isEmpty found) eqn:Hempty.
  { apply isEmpty_true in Hempty as ->. simpl. split; [done|]. by intros _ [= <-]. }
  set (unused := unusedRefPaths found s).
  destruct (isEmpty unused) eqn:Hunused.
  { apply isEmpty_true in Hunused. simpl. split; [done|].
    intros _ [= <-]. fold unused. by rewrite Hunused. }
  destruct (settleAll (map (stat c) unused)),
    (prompt c "show") as [[]|], (prompt c "remove") as [[]|],
    (settleAll (map (unlink c) unused));
    simpl; (split; [observe | intros _ [= <-]; fold unused; observe]).
Qed.

End CommandFacts.

(** ** The master handlers *)

Section MasterFacts.
Context {runnable : Type} (e : env runnable).
Implicit Types (s : state) (tests : store) (browsers : list string)
  (eachTest : list (testref * string)) (r : testref).

Lemma visited_visited (t : test) : visited (visited t) = visited t.
Proof. unfold visited. by destruct (isPending t) eqn:H; [|rewrite H]. Qed.

Lemma ctx_visited (t : test) : ctx (visited t) = ctx t.
Proof. unfold visited. by destruct (isPending t). Qed.

(** The [reduce] over the browsers. *)
Lemma reduceBrowsers_spec browsers :
  ∀ acc patterns,
    let res := foldl (reduceBrowser e) (acc, patterns) browsers in
    res.2 = patterns ++ omap (fixedPattern e) browsers
    ∧ ∀ b, res.1 !! b =
        if decide (b ∈ browsers) then
          match screenshotsDir (forBrowser e b) with
          | DirFn fn => Some fn
          | Dir _ => acc !! b
          end
        else acc !! b.
Proof.
  induction browsers as [|b0 browsers IH]; intros acc patterns; csimpl.
  - split; [by rewrite app_nil_r|]. intros b.
    by destruct (decide (b ∈ [])) as [?%not_elem_of_nil|].
  - specialize (IH (reduceBrowser e (acc, patterns) b0).1
                   (reduceBrowser e (acc, patterns) b0).2).
    cbv zeta in IH. rewrite <- surjective_pairing in IH.
    destruct IH as [Hpat Hfns]. split.
    + rewrite Hpat. unfold reduceBrowser, fixedPattern.
      destruct (screenshotsDir (forBrowser e b0)); simpl; [|done].
      by rewrite <- app_assoc.
    + intros b. rewrite Hfns. unfold reduceBrowser.
      destruct (decide (b = b0)) as [->|Hne].
      * rewrite (decide_True (P := b0 ∈ b0 :: browsers)) by left.
        destruct (screenshotsDir (forBrowser e b0)) as [dir|fn]; simpl.
        -- by destruct (decide (b0 ∈ browsers)).
        -- destruct (decide (b0 ∈ browsers)); [done|]. apply lookup_insert_eq.
      * assert ((reduceBrowser e (acc, patterns) b0).1 !! b = acc !! b) as Hacc.
        { unfold reduceBrowser.
          destruct (screenshotsDir (forBrowser e b0)); simpl; [done|].
          by rewrite lookup_insert_ne. }
        unfold reduceBrowser in Hacc. rewrite Hacc.
        destruct (decide (b ∈ browsers)) as [Hin|Hin].
        -- by rewrite decide_True by (by right).
        -- rewrite decide_False; [done|]. by intros [?|?]%elem_of_cons.
Qed.

(** The pass of [eachTest], started on a store that agrees with [tests]
    but for the tests [seen] so far. *)
Lemma foldl_visitTest (fns : gmap string (test → string)) browsers tests :
  (∀ b t, (λ fn, genScreenPattern e (fn t)) <$> fns !! b = fnPattern e browsers t b) →
  ∀ eachTest seen patterns (current : store),
    (∀ r, current r = if decide (r ∈ seen) then visited (tests r) else tests r) →
    let res := foldl (visitTest e fns) (patterns, current) eachTest in
    res.1 = patterns ++ fnPatterns e browsers tests seen eachTest
    ∧ ∀ r, res.2 r =
        if decide (r ∈ seen ∨ r ∈ eachTest.*1) then visited (tests r) else tests r.
Proof.
  intros Hfns. induction eachTest as [|[t b] eachTest IH];
    intros seen patterns current Hcurrent; csimpl.
  - split; [by rewrite app_nil_r|]. intros r. rewrite Hcurrent.
    destruct (decide (r ∈ seen)) as [Hin|Hin].
    + by rewrite decide_True by (by left).
    + rewrite decide_False; [done|]. intros [?|?%not_elem_of_nil]; done.
  - set (patterns' := match fns !! b with
                      | Some fn => patterns ++ [genScreenPattern e (fn (current t))]
                      | None => patterns
                      end).
    set (current' := if isPending (current t)
                     then <[t := enabled (current t)]> current else current).
    assert (∀ r, current' r = if decide (r ∈ t :: seen)
                              then visited (tests r) else tests r) as Hcurrent'.
    { intros r. subst current'. destruct (decide (r = t)) as [->|Hne].
      - rewrite (decide_True (P := t ∈ t :: seen)) by left.
        transitivity (visited (current t)).
        + unfold visited. destruct (isPending (current t)); [|done].
          apply fn_lookup_insert.
        + rewrite Hcurrent. destruct (decide (t ∈ seen)); [|done].
          apply visited_visited.
      - transitivity (current r).
        + destruct (isPending (current t)); [|done]. by apply fn_lookup_insert_ne.
        + rewrite Hcurrent. destruct (decide (r ∈ seen)) as [Hin|Hin].
          * by rewrite decide_True by (by right).
          * rewrite decide_False; [done|]. by intros [?|?]%elem_of_cons. }
    destruct (IH (t :: seen) patterns' current' Hcurrent') as [Hpat Htests].
    split.
    + rewrite Hpat. subst patterns'. rewrite <- (Hfns b), Hcurrent.
      destruct (fns !! b); simpl; [by rewrite <- app_assoc | done].
    + intros r. rewrite Htests.
      destruct (decide (r ∈ t :: seen ∨ r ∈ eachTest.*1)) as [Hin|Hin].
      * rewrite decide_True; [done|].
        destruct Hin as [[->|?]%elem_of_cons|?]; [right; left | by left | right; by right].
      * rewrite decide_False; [done|]. intros [?|[->|?]%elem_of_cons]; apply Hin.
        -- left. by right.
        -- left. left.
        -- by right.
Qed.

(** The AFTER_TESTS_READ handler: it pushes the derived patterns, leaves
    [opts] alone, and leaves every enumerated test [visited]. *)
Lemma onAfterTestsRead_spec browsers eachTest s :
  let s' := onAfterTestsRead e browsers eachTest s in
  screenPatterns s' = screenPatterns s ++ derivedPatterns e browsers (tests s) eachTest
  ∧ options s' = options s
  ∧ ∀ r, tests s' r =
      if decide (r ∈ eachTest.*1) then visited (tests s r) else tests s r.
Proof.
  unfold onAfterTestsRead, reduceBrowsers.
  destruct (reduceBrowsers_spec browsers ∅ (screenPatterns s)) as [Hpat Hfns].
  cbv zeta in Hpat, Hfns.
  destruct (foldl (reduceBrowser e) (∅, screenPatterns s) browsers)
    as [fns patterns]; simpl in Hpat, Hfns.
  destruct (foldl_visitTest fns browsers (tests s)) with
    (eachTest := eachTest) (seen := @nil testref) (patterns := patterns)
    (current := tests s) as [Hpat' Htests].
  { intros b t. rewrite Hfns. unfold fnPattern.
    destruct (decide (b ∈ browsers)); [|by rewrite lookup_empty].
    destruct (screenshotsDir (forBrowser e b)); [by rewrite lookup_empty | done]. }
  { intros r. by destruct (decide (r ∈ [])) as [?%not_elem_of_nil|]. }
  cbv zeta in Hpat', Htests.
  destruct (foldl (visitTest e fns) (patterns, tests s) eachTest)
    as [patterns' tests']; simpl in *.
  split_and!; [|done|].
  - rewrite Hpat', Hpat. unfold derivedPatterns. by rewrite app_assoc.
  - intros r. rewrite Htests.
    destruct (decide (r ∈ eachTest.*1)) as [Hin|Hin].
    + by rewrite decide_True by (by right).
    + rewrite decide_False; [done|]. intros [?%not_elem_of_nil|?]; done.
Qed.

(** C9.  In the pass over the enumerated tests (browser ids being plain
    property names), a test that is pending comes out with [pending] and
    [silentSkip] both [false] and its other fields as they were; a test that
    is not pending, and a test that is not enumerated, comes out as it went
    in. *)
Theorem pending_tests_are_enabled browsers eachTest s r :
  Forall (λ b, plainKey b = true) browsers →
  Forall (λ b, plainKey b = true) eachTest.*2 →
  let s' := onAfterTestsRead e browsers eachTest s in
  (r ∈ eachTest.*1 → pending (tests s r) = Some true →
     pending (tests s' r) = Some false ∧ silentSkip (tests s' r) = Some false
     ∧ file (tests s' r) = file (tests s r) ∧ ctx (tests s' r) = ctx (tests s r))
  ∧ (pending (tests s r) ≠ Some true → tests s' r = tests s r)
  ∧ (r ∉ eachTest.*1 → tests s' r = tests s r).
Proof.
  intros _ _ s'.
  destruct (onAfterTestsRead_spec browsers eachTest s) as (_ & _ & Htests).
  fold s' in Htests. rewrite Htests. split_and!.
  - intros Hin Hpending. rewrite decide_True by done.
    unfold visited, isPending. rewrite Hpending. done.
  - intros Hpending. destruct (decide (r ∈ eachTest.*1)); [|done].
    unfold visited, isPending.
    destruct (pending (tests s r)) as [[]|]; done.
  - intros Hin. by rewrite decide_False.
Qed.

(** C6, as the code has it.  The TEST_END handler touches nothing but
    [opts.usedRefPaths].  When the context of the finished test carries a
    [usedRefPaths] list, of any length, the accumulator becomes its former
    entries (none when it was absent) followed by the entries of the list;
    for an empty list its entries stay as they were.  When the context
    carries no list the whole state is left as it was. *)
Theorem test_end_appends_present_list finished s :
  let context := tests s (getTestContext e finished) in
  let s' := onTestEnd e finished s in
  screenPatterns s' = screenPatterns s
  ∧ tests s' = tests s
  ∧ screenshotPaths (options s') = screenshotPaths (options s)
  ∧ runCleanScreenshots (options s') = runCleanScreenshots (options s)
  ∧ match getUsedRefPaths context with
    | Some paths =>
        usedRefPaths (options s')
        = Some (default [] (usedRefPaths (options s)) ++ paths)
    | None => s' = s
    end
  ∧ (getUsedRefPaths context = Some [] →
     default [] (usedRefPaths (options s')) = default [] (usedRefPaths (options s))).
Proof.
  intros context s'. subst s'. unfold onTestEnd. fold context.
  destruct (getUsedRefPaths context) as [paths|]; simpl; split_and!; try done.
  intros [= ->]. by rewrite app_nil_r.
Qed.

(** TEST_END events leave the patterns and the tests alone. *)
Lemma foldl_TestEnd (finished : list runnable) s :
  let s' := foldl (handle e) s (map TestEnd finished) in
  screenPatterns s' = screenPatterns s ∧ tests s' = tests s.
Proof.
  revert s. induction finished as [|f finished IH]; intros s; simpl; [done|].
  destruct (IH (onTestEnd e f s)) as [-> ->].
  unfold onTestEnd. by destruct (getUsedRefPaths _).
Qed.

End MasterFacts.

(** ** The patterns and the accumulator of a whole run *)

Section RunFacts.
Context {runnable : Type} (c : collaborators runnable) (e : env runnable).

(** C1.  Whatever paths the expansion found and whatever list of used paths
    the run has accumulated, the unused paths the command computes are the
    set difference found − used by string equality: none of them is used,
    every found path that is not used is among them, and there is none
    exactly when every found path is used.  These are the paths the command
    goes on to stat. *)
Theorem unused_is_found_minus_used (o : opts) (tests : store)
    (found used : list string) :
  let s := afterRun c e o tests in
  usedRefPaths (options s) = Some used →
  let unused := unusedRefPaths found s in
  (∀ path, path ∈ unused ↔ path ∈ found ∧ path ∉ used)
  ∧ (∀ path, path ∈ used → path ∉ unused)
  ∧ (∀ path, path ∈ found → path ∉ used → path ∈ unused)
  ∧ (unused = [] ↔ ∀ path, path ∈ found → path ∈ used)
  ∧ ((run c).2 = Ok () →
     expandPaths c (uniq (screenPatterns s)) = Ok found →
     statCalls (action c e o tests) = unused).
Proof.
  intros s Hused unused. subst unused.
  unfold unusedRefPaths, difference. rewrite Hused. simpl. split_and!.
  - intros path. apply elem_of_baseDifference.
  - intros path Hin Hunused. apply elem_of_baseDifference in Hunused. tauto.
  - intros path Hfound Hn. by apply elem_of_baseDifference.
  - apply baseDifference_nil.
  - intros Hrun Hexpand.
    destruct (action_calls c e o tests Hrun) as [_ Hstat].
    rewrite (Hstat found Hexpand). unfold unusedRefPaths, difference.
    fold s. by rewrite Hused.
Qed.

(** C2, as the code has it.  In a run that emits AFTER_TESTS_READ once and
    then TEST_END events, and whose browser ids are plain property names,
    [glob.expandPaths] is called once, with the deduplication of the
    configured patterns that are not empty strings followed by the derived
    patterns: one pattern for each browser with a string directory, and one
    pattern for each enumerated pair whose browser has a function.  The list
    has no duplicates and holds exactly these patterns. *)
Theorem patterns_handed_to_glob (o : opts) (tests : store)
    (browsers : list string) (eachTest : list (testref * string))
    (finished : list runnable) :
  (run c).1 = AfterTestsRead browsers eachTest :: map TestEnd finished →
  (run c).2 = Ok () →
  Forall (λ b, plainKey b = true) browsers →
  Forall (λ b, plainKey b = true) eachTest.*2 →
  let static := compact (concatValue (screenshotPaths o)) in
  let derived := derivedPatterns e browsers tests eachTest in
  expandCalls (action c e o tests) = [uniq (static ++ derived)]
  ∧ NoDup (uniq (static ++ derived))
  ∧ ∀ pattern, pattern ∈ uniq (static ++ derived)
      ↔ (Some pattern ∈ concatValue (screenshotPaths o) ∧ pattern ≠ "")
        ∨ pattern ∈ derived.
Proof.
  intros Hevents Hrun _ _ static derived.
  destruct (action_calls c e o tests Hrun) as [Hexpand _].
  rewrite Hexpand. unfold afterRun. rewrite Hevents. simpl.
  destruct (foldl_TestEnd e finished
              (onAfterTestsRead e browsers eachTest (start o tests))) as [-> _].
  destruct (onAfterTestsRead_spec e browsers eachTest (start o tests)) as (-> & _ & _).
  simpl. fold static. fold derived. split_and!; [done | apply NoDup_uniq |].
  intros pattern. rewrite elem_of_uniq, elem_of_app.
  unfold static. by rewrite elem_of_compact.
Qed.

(** The accumulator is written by TEST_END events only, and only for a
    context that carries a list. *)
Lemma accumulator_stays_absent (events : list (hostEvent runnable)) (s : state) :
  usedRefPaths (options s) = None →
  (∀ finished, TestEnd finished ∈ events →
     getUsedRefPaths (tests s (getTestContext e finished)) = None) →
  usedRefPaths (options (foldl (handle e) s events)) = None.
Proof.
  revert s. induction events as [|ev events IH]; intros s Habsent Hnone; simpl; [done|].
  apply IH.
  - destruct ev as [browsers eachTest|finished]; simpl.
    + destruct (onAfterTestsRead_spec e browsers eachTest s) as (_ & -> & _). done.
    + unfold onTestEnd. rewrite Hnone by left. done.
  - intros finished Hin.
    assert (∀ r, ctx (tests (handle e s ev) r) = ctx (tests s r)) as Hctx.
    { intros r. destruct ev as [browsers eachTest|f]; simpl.
      - destruct (onAfterTestsRead_spec e browsers eachTest s) as (_ & _ & ->).
        destruct (decide _); [apply ctx_visited | done].
      - unfold onTestEnd. by destruct (getUsedRefPaths _). }
    unfold getUsedRefPaths. rewrite Hctx. apply Hnone. by right.
Qed.

(** C10.  When [opts.usedRefPaths] is still absent once the run is over,
    nothing is taken away from the found paths: the unused paths are the
    found paths, and the command goes on to stat every one of them. *)
Theorem absent_accumulator_leaves_all_found (o : opts) (tests : store) :
  let s := afterRun c e o tests in
  usedRefPaths (options s) = None →
  (∀ found, unusedRefPaths found s = found)
  ∧ (∀ found, (run c).2 = Ok () →
       expandPaths c (uniq (screenPatterns s)) = Ok found →
       statCalls (action c e o tests) = found).
Proof.
  intros s Habsent.
  assert (∀ found, unusedRefPaths found s = found) as Hall.
  { intros found. unfold unusedRefPaths, difference. rewrite Habsent.
    apply baseDifference_none. }
  split; [done|]. intros found Hrun Hexpand.
  destruct (action_calls c e o tests Hrun) as [_ Hstat].
  rewrite (Hstat found Hexpand). apply Hall.
Qed.

End RunFacts.

(** ** The worker handler *)

Import Worker.

Section WorkerFacts.
Context {runnable : Type} (e : env runnable).
Implicit Types (b : browser runnable) (tests : store) (name : string).

Lemma rejected_false name :
  rejected e name = false
  ↔ (name ∉ eventEmitterKeys e) ∧ name ≠ "addCommand" ∧ name ≠ "assertView"
    ∧ name ≠ "executionContext" ∧ String.prefix "_" name = false.
Proof.
  unfold rejected, reservedCommands.
  rewrite orb_false_iff, bool_decide_eq_false, elem_of_app, !elem_of_cons, elem_of_nil.
  tauto.
Qed.

Lemma foldl_addCommand (names : list string) b :
  let b' := foldl (λ b commandName, addCommand commandName Stub b) b names in
  protoKeys b' = protoKeys b
  ∧ executionContext b' = executionContext b
  ∧ ∀ name, installed b' !! name =
      if decide (name ∈ names) then Some Stub else installed b !! name.
Proof.
  revert b. induction names as [|n names IH]; intros b; simpl.
  - split_and!; [done..|]. intros name.
    by destruct (decide (name ∈ [])) as [?%not_elem_of_nil|].
  - destruct (IH (addCommand n Stub b)) as (-> & -> & Hinstalled).
    split_and!; [done..|]. intros name. rewrite Hinstalled. simpl.
    destruct (decide (name ∈ names)) as [Hin|Hin].
    + by rewrite decide_True by (by right).
    + destruct (decide (name = n)) as [->|Hne].
      * rewrite decide_True by left. apply lookup_insert_eq.
      * rewrite lookup_insert_ne by done.
        rewrite decide_False; [done|]. by intros [?|?]%elem_of_cons.
Qed.

(** C7.  With the [runCleanScreenshots] flag unset the NEW_BROWSER handler
    calls nothing and leaves the session as it was.  With the flag set, and
    apart from [assertView], which gets the recorder, it replaces by the stub
    exactly the enumerable keys of the prototype that are not keys of
    [EventEmitter.prototype], not [addCommand], [assertView] or
    [executionContext], and do not start with an underscore; every other
    command stays as it was.  Calling what is then installed under such a
    key resolves to the object [{value: {}}], one [value] member holding an
    object without members, calls nothing and leaves the tests as they were;
    so does the stub on any session. *)
Theorem new_browser_installs_only_when_flagged (o : opts) b (browserId : string) :
  let res := onNewBrowser e o b browserId in
  let stubbed name :=
    name ∈ protoKeys b ∧ (name ∉ eventEmitterKeys e) ∧ name ≠ "addCommand"
    ∧ name ≠ "assertView" ∧ name ≠ "executionContext"
    ∧ String.prefix "_" name = false in
  (runCleanScreenshots o = false → res = (b, []))
  ∧ (runCleanScreenshots o = true →
     protoKeys res.1 = protoKeys b
     ∧ executionContext res.1 = executionContext b
     ∧ installed res.1 !! "assertView" = Some (AssertView (forBrowser e browserId))
     ∧ (∀ name, stubbed name → installed res.1 !! name = Some Stub)
     ∧ (∀ name, name ≠ "assertView" → ¬ stubbed name →
          installed res.1 !! name = installed b !! name)
     ∧ (∀ name fn, (name, fn) ∈ res.2 →
          (stubbed name ∧ fn = Stub)
          ∨ (name = "assertView" ∧ fn = AssertView (forBrowser e browserId)))
     ∧ (∀ name tests state, stubbed name →
          ∃ fn, installed res.1 !! name = Some fn
                ∧ invoke e fn res.1 tests state
                  = ([], Ok (Some (JObject [Member "value" (JObject [])]), tests))))
  ∧ (∀ b' tests state,
       invoke e Stub b' tests state
       = ([], Ok (Some (JObject [Member "value" (JObject [])]), tests))).
Proof.
  intros res stubbed. subst res. unfold onNewBrowser.
  assert (∀ name, name ∈ commandsList e b ↔ stubbed name) as Hlist.
  { intros name. unfold commandsList, stubbed.
    rewrite list_elem_of_filter, rejected_false. tauto. }
  split_and!; [by intros ->| |done].
  intros ->. simpl.
  destruct (foldl_addCommand (commandsList e b) b) as (Hkeys & Hcontext & Hinstalled).
  cbv zeta in Hkeys, Hcontext, Hinstalled.
  assert (∀ name, stubbed name →
            <[ "assertView" := AssertView (forBrowser e browserId) ]>
              (installed (foldl (λ b0 commandName, addCommand commandName Stub b0)
                                b (commandsList e b))) !! name = Some Stub)
    as Hstub.
  { intros name Hstubbed.
    assert (name ≠ "assertView") as Hne by (unfold stubbed in Hstubbed; tauto).
    rewrite lookup_insert_ne by done. rewrite Hinstalled.
    by rewrite decide_True by (by apply Hlist). }
  split_and!; [done | done | apply lookup_insert_eq | done | | |].
  - intros name Hne Hnot. rewrite lookup_insert_ne by done. rewrite Hinstalled.
    by rewrite decide_False by (by rewrite Hlist).
  - intros name fn [Hin|Hin]%elem_of_app.
    + apply list_elem_of_fmap in Hin as (n & [= -> ->] & Hn). left.
      split; [by apply Hlist | done].
    + apply list_elem_of_singleton in Hin as [= -> ->]. by right.
  - intros name tests state Hstubbed. exists Stub. split; [by apply Hstub | done].
Qed.

(** The calls of one test, on a store where the test is [object] but for
    its accumulator. *)
Lemma assertViews_spec (browserConfig : browserConfig) b (object : test)
    (states paths : list string) :
  let t := getTestContext e (executionContext b) in
  Forall2 (λ state path,
             ∀ used, getScreenshotPath browserConfig (withUsed object used) state
                     = Ok path)
          states paths →
  ∀ tests before,
    tests t = withUsed object before →
    ∃ tests',
      assertViews e browserConfig b tests states
      = (flat_map (λ state, [CallGetTestContext (executionContext b);
                            CallGetScreenshotPath t state]) states,
         Ok tests')
      ∧ tests' t = withUsed object
                     (match states with
                      | [] => before
                      | _ => Some (default [] before ++ paths)
                      end)
      ∧ ∀ r, r ≠ t → tests' r = tests r.
Proof.
  intros t Hresolver.
  induction Hresolver as [|state path states paths Hpath Hrest IH];
    intros tests before Ht; simpl.
  - by exists tests.
  - unfold assertView. fold t. rewrite Ht, Hpath. simpl.
    set (used := default [] before ++ [path]).
    set (tests1 := <[t := withUsed (withUsed object before) (Some used)]> tests).
    destruct (IH tests1 (Some used)) as (tests' & Hcalls & Hobject & Hother).
    { subst tests1. etrans; [apply fn_lookup_insert | done]. }
    rewrite Hcalls. exists tests'. split_and!; [done| |].
    + rewrite Hobject. destruct Hrest; simpl; [done|].
      subst used. by rewrite <- app_assoc.
    + intros r Hr. rewrite Hother by done. by apply fn_lookup_insert_ne.
Qed.

(** C5.  A test whose context is [t] calls the installed [assertView] with
    the states [states], one after the other, and the resolver returns the
    paths [paths] for them.  Every call looks up the test through
    [getTestContext] on the execution context and asks [getScreenshotPath]
    for [(t, state)], and calls nothing else; afterwards the
    [hermioneCtx.usedRefPaths] of the test holds what it held before followed
    by [paths], in the order of the calls, and nothing else in the store has
    changed. *)
Theorem assertView_records_paths_in_order (o : opts) b (browserId : string)
    tests (states paths : list string) (before : hermioneCtx) :
  let browserConfig := forBrowser e browserId in
  let t := getTestContext e (executionContext b) in
  runCleanScreenshots o = true →
  ctx (tests t) = Some before →
  Forall2 (λ state path,
             ∀ used, getScreenshotPath browserConfig (withUsed (tests t) used) state
                     = Ok path)
          states paths →
  installed (onNewBrowser e o b browserId).1 !! "assertView"
    = Some (AssertView browserConfig)
  ∧ ∃ tests',
      assertViews e browserConfig b tests states
      = (flat_map (λ state, [CallGetTestContext (executionContext b);
                            CallGetScreenshotPath t state]) states,
         Ok tests')
      ∧ default [] (getUsedRefPaths (tests' t))
        = default [] (ctx_usedRefPaths before) ++ paths
      ∧ (states ≠ [] →
         tests' t
         = withUsed (tests t) (Some (default [] (ctx_usedRefPaths before) ++ paths)))
      ∧ file (tests' t) = file (tests t)
      ∧ pending (tests' t) = pending (tests t)
      ∧ silentSkip (tests' t) = silentSkip (tests t)
      ∧ ∀ r, r ≠ t → tests' r = tests r.
Proof.
  intros browserConfig t Hflag Hctx Hresolver. split.
  { unfold onNewBrowser. rewrite Hflag. simpl. apply lookup_insert_eq. }
  assert (tests t = withUsed (tests t) (ctx_usedRefPaths before)) as Ht.
  { destruct (tests t) as [f p k h]. simpl in Hctx. subst h.
    by destruct before. }
  destruct (assertViews_spec browserConfig b (tests t) states paths Hresolver
              tests (ctx_usedRefPaths before) Ht)
    as (tests' & Hcalls & Hobject & Hother).
  fold t in Hcalls, Hobject, Hother.
  exists tests'. rewrite Hobject. split_and!; try done.
  - unfold getUsedRefPaths. simpl. destruct Hresolver; simpl; [|done].
    by rewrite app_nil_r.
  - intros Hne. by destruct states.
Qed.

End WorkerFacts.

(** * The claims on concrete runs *)

Import Scenario.

(** The sizes of the two unused screenshots add up, and a declined removal
    deletes nothing. *)
Example sizes_add_up :
  action (world [] bothScreens false (Ok ())) hermione screens suite
  = [HermioneRun;
     Debug ("Try to find screen paths on file system by patterns:" +:+ nl
            +:+ "/screens/**");
     ExpandPaths ["/screens/**"] ".png";
     Debug ("Found screen paths on file system:" +:+ nl +:+ "/screens/plain.png"
            +:+ nl +:+ "/screens/hover.png");
     Debug ("Found unused screenshots:" +:+ nl +:+ "/screens/plain.png"
            +:+ nl +:+ "/screens/hover.png");
     FsStat "/screens/plain.png"; FsStat "/screens/hover.png";
     LoggerLog "Found 2 unused screenshots with total size 300 B";
     Prompt "show" "Show list of unused screenshosts?";
     Prompt "remove" "Remove unused screenshots?";
     LoggerLog "Deletion of unused screenshots was canceled"].
Proof. vm_compute. reflexivity. Qed.

(** A rejected run is reported and exits with 1. *)
Example rejected_run_exits :
  action (Collaborators ([], Throw (ErrorObject "some-stack-error"))
                        (λ _, Ok []) sizes (λ _, Ok false) (λ _, Ok ())
                        (λ _, "0 B"))
         hermione screens suite
  = [HermioneRun; LoggerError (Text "some-stack-error"); ProcessExit 1].
Proof. reflexivity. Qed.

(** C8, where the command departs from it.  A run rejected with [null] or
    [undefined] (a promise rejected without a reason, say) is not reported:
    the [catch] block throws on [err.stack] before it calls anything.
    Whatever the options, the tests and the other collaborators, the command
    then has made the one call [hermione.run()], has handed nothing to
    [logger.error], has not exited, and is itself rejected with the
    [TypeError]; the same run rejected with a thrown string is reported,
    the string going to [logger.error], and exits with 1. *)
Theorem nullish_rejection_escapes_the_catch {runnable : Type} (e : env runnable)
    (events : list (hostEvent runnable))
    (expand : list string → result (list string)) (sizes : string → result Z)
    (answers : string → result bool) (unlinked : string → result unit)
    (filesize : Z → string) (o : opts) (tests : store) :
  let host settled :=
    Collaborators (events, settled) expand sizes answers unlinked filesize in
  let calls := action (host (Throw Nullish)) e o tests in
  thrownBy (host (Throw Nullish)) HermioneRun = Some Nullish
  ∧ calls = [HermioneRun]
  ∧ logged_error calls = []
  ∧ exitCodes calls = []
  ∧ rejection (host (Throw Nullish)) e o tests = Some typeError
  ∧ ∀ text,
      action (host (Throw (Primitive text))) e o tests
      = [HermioneRun; LoggerError (Value (Primitive text)); ProcessExit 1]
      ∧ rejection (host (Throw (Primitive text))) e o tests = None.
Proof. cbv zeta. split_and!; try reflexivity. intros text. split; reflexivity. Qed.

(** Two tests on two browsers: one pattern for [yabro], one per test for
    [fnbro], and the skipped test is enabled. *)
Example derived_patterns_of_two_tests :
  let s := onAfterTestsRead hermione ["yabro"; "fnbro"]
             [(0, "yabro"); (0, "fnbro"); (1, "yabro"); (1, "fnbro")]
             (start screens suite) in
  screenPatterns s
  = ["/screens/**"; "/dir/yabro/screens/**/*.png";
     "/dir/file1/screens/**/*.png"; "/dir/file2/screens/**/*.png"]
  ∧ tests s 0 = Test "/dir/file1" (Some false) (Some false) (Some (HermioneCtx None))
  ∧ tests s 1 = suite 1.
Proof. vm_compute. done. Qed.

(** Flag set: the ordinary command is stubbed, the recorder is installed,
    nothing else is. *)
Example session_commands :
  (onNewBrowser hermione (Opts PathsNull None true) session "yabro").2
  = [("broCommand", Stub); ("assertView", AssertView (config "yabro"))]
  ∧ onNewBrowser hermione (Opts PathsNull None false) session "yabro"
    = (session, []).
Proof. split; reflexivity. Qed.

(** Calling the stubbed command of that session resolves to [{value: {}}]
    and touches nothing; the private field was not replaced. *)
Example stubbed_command_resolves :
  let b := (onNewBrowser hermione (Opts PathsNull None true) session "yabro").1 in
  (∃ fn, installed b !! "broCommand" = Some fn
         ∧ invoke hermione fn b suite "plain"
           = ([], Ok (Some (JObject [Member "value" (JObject [])]), suite)))
  ∧ installed b !! "_private1" = None.
Proof. split; [exists Stub; split; reflexivity | reflexivity]. Qed.

(** C3 on two runs: nothing found, and nothing unused. *)
Lemma nothing_to_clean_witness :
  (let calls := action (world [] [] false (Ok ())) hermione screens suite in
   last calls = Some (LoggerError (Text
     ("Screenshot paths not found on file system by patterns:" +:+ nl
      +:+ "/screens/**")))
   ∧ (body (world [] [] false (Ok ())) hermione screens suite).2 = Ok ()
   ∧ statCalls calls = [] ∧ promptCalls calls = []
   ∧ unlinkCalls calls = [] ∧ exitCodes calls = [])
  ∧ (let c := world [TestEnd 1] ["/screens/plain.png"] false (Ok ()) in
     let calls := action c hermione screens suite in
     last calls = Some (LoggerLog
       "Unused screenshots not found by patterns: /screens/**")
     ∧ (body c hermione screens suite).2 = Ok ()
     ∧ statCalls calls = [] ∧ promptCalls calls = []
     ∧ unlinkCalls calls = [] ∧ exitCodes calls = []).
Proof.
  split.
  - apply (nothing_to_clean (world [] [] false (Ok ())) hermione screens suite []);
      [reflexivity | reflexivity | left; reflexivity].
  - apply (nothing_to_clean (world [TestEnd 1] ["/screens/plain.png"] false (Ok ()))
             hermione screens suite ["/screens/plain.png"]);
      [reflexivity | reflexivity | right; reflexivity].
Defined.



(** C6 as stated fails on an empty list: the context of the finished test
    carries [usedRefPaths = []], the accumulator was absent, and the handler
    leaves it initialised to the empty list. *)
Lemma empty_list_initialises_accumulator :
  let s := start screens suite in
  getUsedRefPaths (tests s (getTestContext hermione 2)) = Some []
  ∧ usedRefPaths (options s) = None
  ∧ usedRefPaths (options (onTestEnd hermione 2 s)) = Some []
  ∧ options (onTestEnd hermione 2 s) ≠ options s.
Proof. cbv zeta. split_and!; try reflexivity. discriminate. Qed.

(** C2 as stated fails on a configured empty string: the static list is
    [[""]], nothing is derived, and [glob.expandPaths] is handed the empty
    list, not the deduplication of the static list. *)
Lemma empty_pattern_is_not_handed_to_glob :
  let o := Opts (PathsArray [""]) None false in
  let c := world [AfterTestsRead [] []] [] false (Ok ()) in
  derivedPatterns hermione [] suite [] = []
  ∧ uniq ([""] ++ derivedPatterns hermione [] suite []) = [""]
  ∧ expandCalls (action c hermione o suite) = [[]]
  ∧ expandCalls (action c hermione o suite)
    ≠ [uniq ([""] ++ derivedPatterns hermione [] suite [])].
Proof. cbv zeta. split_and!; try reflexivity. discriminate. Qed.

(** C2, amended, on two tests and two browsers; the configured list repeats
    the pattern of [yabro] and holds an empty string. *)
Lemma patterns_handed_to_glob_witness :
  let pairs := [(0, "yabro"); (0, "fnbro"); (1, "yabro"); (1, "fnbro")] in
  let c := world [AfterTestsRead ["yabro"; "fnbro"] pairs; TestEnd 0; TestEnd 1]
                 [] false (Ok ()) in
  let o := Opts (PathsArray ["/screens/path1/**"; "/dir/yabro/screens/**/*.png"; ""])
                None false in
  expandCalls (action c hermione o suite)
  = [["/screens/path1/**"; "/dir/yabro/screens/**/*.png";
      "/dir/file1/screens/**/*.png"; "/dir/file2/screens/**/*.png"]].
Proof.
  cbv zeta.
  apply (proj1 (patterns_handed_to_glob
                  (world [AfterTestsRead ["yabro"; "fnbro"]
                            [(0, "yabro"); (0, "fnbro"); (1, "yabro"); (1, "fnbro")];
                          TestEnd 0; TestEnd 1] [] false (Ok ()))
                  hermione
                  (Opts (PathsArray ["/screens/path1/**";
                                     "/dir/yabro/screens/**/*.png"; ""])
                        None false)
                  suite ["yabro"; "fnbro"]
                  [(0, "yabro"); (0, "fnbro"); (1, "yabro"); (1, "fnbro")]
                  [0; 1] eq_refl eq_refl
                  ltac:(repeat constructor) ltac:(repeat constructor))).
Defined.

(** C10 on a run whose only finished test used nothing. *)
Lemma absent_accumulator_leaves_all_found_witness :
  let c := world [AfterTestsRead ["yabro"] [(0, "yabro")]; TestEnd 0]
                 bothScreens false (Ok ()) in
  usedRefPaths (options (afterRun c hermione screens suite)) = None
  ∧ unusedRefPaths bothScreens (afterRun c hermione screens suite) = bothScreens
  ∧ statCalls (action c hermione screens suite) = bothScreens.
Proof.
  cbv zeta.
  destruct (absent_accumulator_leaves_all_found
              (world [AfterTestsRead ["yabro"] [(0, "yabro")]; TestEnd 0]
                     bothScreens false (Ok ()))
              hermione screens suite eq_refl) as [Hall Hstat].
  split_and!; [reflexivity | apply Hall | apply Hstat; reflexivity].
Defined.

(** C5 on the two calls of the specification: states [plain1] and [plain2],
    resolved to [/ref/1] and [/ref/2]. *)
Lemma assertView_records_paths_in_order_witness :
  ∃ tests',
    assertViews hermione (config "yabro") session suite ["plain1"; "plain2"]
    = ([CallGetTestContext 0; CallGetScreenshotPath 0 "plain1";
        CallGetTestContext 0; CallGetScreenshotPath 0 "plain2"], Ok tests')
    ∧ getUsedRefPaths (tests' 0) = Some ["/ref/1"; "/ref/2"].
Proof.
  destruct (assertView_records_paths_in_order hermione (Opts PathsNull None true)
              session "yabro" suite ["plain1"; "plain2"] ["/ref/1"; "/ref/2"]
              (HermioneCtx None))
    as (_ & tests' & Hcalls & _ & Hobject & _);
    [reflexivity | reflexivity
    | repeat (constructor; [intros; reflexivity|]); constructor |].
  exists tests'. split; [exact Hcalls|].
  specialize (Hobject ltac:(discriminate)).
  change (tests' 0 = withUsed (suite 0) (Some ["/ref/1"; "/ref/2"])) in Hobject.
  rewrite Hobject. reflexivity.
Defined.

(** C9 on the skipped test of the suite, enumerated on two browsers, and on
    a test that is not pending. *)
Lemma pending_tests_are_enabled_witness :
  let pairs := [(0, "yabro"); (0, "fnbro"); (1, "yabro")] in
  let s' := onAfterTestsRead hermione ["yabro"; "fnbro"] pairs (start screens suite) in
  (pending (tests s' 0) = Some false ∧ silentSkip (tests s' 0) = Some false
   ∧ file (tests s' 0) = "/dir/file1" ∧ ctx (tests s' 0) = Some (HermioneCtx None))
  ∧ tests s' 1 = suite 1
  ∧ tests s' 2 = suite 2.
Proof.
  cbv zeta.
  pose proof (λ r, pending_tests_are_enabled hermione ["yabro"; "fnbro"]
                     [(0, "yabro"); (0, "fnbro"); (1, "yabro")]
                     (start screens suite) r
                     ltac:(repeat constructor) ltac:(repeat constructor)) as H.
  cbv zeta in H. split; [|split].
  - exact (proj1 (H 0) (list_elem_of_here 0 _) eq_refl).
  - refine (proj1 (proj2 (H 1)) _). discriminate.
  - refine (proj2 (proj2 (H 2)) _).
    intros Hin. vm_compute in Hin.
    repeat (apply elem_of_cons in Hin as [Hin|Hin]; [discriminate Hin|]).
    by apply elem_of_nil in Hin.
Defined.

(** C1 on a run in which one finished test used [plain.png]: of the two
    found screenshots only [hover.png] is unused and sized. *)
Lemma unused_is_found_minus_used_witness :
  let c := world [TestEnd 1] bothScreens false (Ok ()) in
  let unused := unusedRefPaths bothScreens (afterRun c hermione screens suite) in
  (∀ path, path ∈ unused ↔ path ∈ bothScreens ∧ path ∉ ["/screens/plain.png"])
  ∧ unused = ["/screens/hover.png"]
  ∧ statCalls (action c hermione screens suite) = ["/screens/hover.png"].
Proof.
  cbv zeta.
  destruct (unused_is_found_minus_used (world [TestEnd 1] bothScreens false (Ok ()))
              hermione screens suite bothScreens ["/screens/plain.png"] eq_refl)
    as (Hiff & _ & _ & _ & Hstat).
  split_and!; [exact Hiff | reflexivity | ].
  rewrite Hstat by reflexivity. reflexivity.
Defined.

(** * Further properties of the code *)

(** ** The option validators *)

Section ConfigFacts.
Import Config.
Context (stringify : value → string).

Lemma forallb_isString (items : list value) :
  forallb isString items = true ↔ ∃ strings, items = VString <$> strings.
Proof.
  induction items as [|v items IH]; simpl.
  - split; [by exists [] | done].
  - rewrite andb_true_iff, IH. split.
    + intros [Hv [strings ->]]. destruct v; try done.
      by exists (s :: strings).
    + intros [[|s strings] Heq]; [done|]. injection Heq as -> ->.
      split; [done | by exists strings].
Qed.

Lemma mapM_asString (items : list value) (strings : list string) :
  mapM asString items = Some strings ↔ items = VString <$> strings.
Proof.
  revert strings. induction items as [|v items IH]; intros strings; csimpl.
  - split; [by intros [= <-] | by destruct strings].
  - destruct v; csimpl; try (split; [done | by destruct strings]).
    destruct (mapM asString items) as [rest|] eqn:Hrest; csimpl.
    + split.
      * intros [= <-]. csimpl. f_equal. by apply IH.
      * destruct strings as [|s' strings]; [done|]. intros [= -> Heq].
        apply IH in Heq. by injection Heq as ->.
    + split; [done|]. destruct strings as [|s' strings]; [done|].
      intros [= -> Heq]. by apply IH in Heq.
Qed.

(** X12.  The [enabled] option is valid exactly when it is a boolean; any other
    value is refused with a [TypeError] that names its [typeof], so that
    [null] and arrays are reported as [object] and the string ["true"] as
    [string]. *)
Theorem enabled_is_valid_iff_boolean (v : value) :
  (validateEnabled v = Returns ↔ ∃ b, v = VBoolean b)
  ∧ ((∀ b, v ≠ VBoolean b) →
     validateEnabled v
     = Throws (TypeError (quote +:+ "enabled" +:+ quote
                          +:+ " option must be boolean, but got " +:+ typeOf v)))
  ∧ (validateEnabled v ≠ Returns →
     typeOf v ∈ ["undefined"; "object"; "number"; "string"]).
Proof.
  unfold validateEnabled, assertBoolean, assertType. split_and!.
  - destruct v; simpl; split; try done; try (by intros [b [=]]). by exists b.
  - intros Hnot. destruct v; try done. by destruct (Hnot b).
  - destruct v; simpl; intros H; try done; set_solver.
Qed.

(** X13.  The [screenshotPaths] option is valid exactly when it is [null], a
    string, or an array whose entries are all strings (the empty array
    included); [undefined], numbers, booleans, objects and arrays with any
    other entry are refused with an [Error] that quotes [JSON.stringify] of
    the value.  The valid values are the ones the command can read. *)
Theorem screenshotPaths_is_valid_iff_strings (v : value) :
  (validateScreenshotPaths stringify v = Returns
   ↔ v = VNull ∨ (∃ s, v = VString s) ∨ (∃ strings, v = VArray (VString <$> strings)))
  ∧ (validateScreenshotPaths stringify v = Returns ↔ is_Some (asScreenshotPaths v))
  ∧ (validateScreenshotPaths stringify v ≠ Returns →
     validateScreenshotPaths stringify v
     = Throws (Error (quote +:+ "screenshotPaths" +:+ quote
                      +:+ " option must be a string or an array of strings but got "
                      +:+ stringify v))).
Proof.
  unfold validateScreenshotPaths, assertStringOrArrayOfStrings.
  assert (∀ items, is_Some (mapM asString items)
                   ↔ ∃ strings, items = VString <$> strings) as HmapM.
  { intros items. split.
    - intros [strings H]. exists strings. by apply mapM_asString.
    - intros [strings H]. exists strings. by apply mapM_asString. }
  destruct v as [| |b|n|s|items|fields]; simpl; split_and!;
    try (split; [done|]); try done;
    try (by intros [?|[[? ?]|[? ?]]]); try (by intros [? ?]);
    try (by split; eauto).
  - destruct (forallb isString items) eqn:Hitems; simpl.
    + split; [|done]. intros _. right. right.
      apply forallb_isString in Hitems as [strings ->]. by exists strings.
    + split; [done|]. intros [?|[[? ?]|[strings [= ->]]]]; try done.
      assert (forallb isString (VString <$> strings) = true) as Hall
        by (apply forallb_isString; by exists strings).
      congruence.
  - rewrite fmap_is_Some, HmapM, <- forallb_isString.
    by destruct (forallb isString items).
  - by destruct (forallb isString items).
Qed.

End ConfigFacts.

(** X7.  The command starts from the configured patterns that are not empty
    strings, in the configured order: none for [null] (the default), the
    string itself for a string, the entries for an array; and it starts with
    the [runCleanScreenshots] flag set and the accumulator as configured. *)
Theorem static_patterns_are_the_non_empty_configured (o : opts) (tests : store) :
  screenPatterns (start o tests)
  = filter (λ pattern, pattern ≠ "")
      (match screenshotPaths o with
       | PathsNull => []
       | PathsString pattern => [pattern]
       | PathsArray patterns => patterns
       end)
  ∧ Forall (λ pattern, pattern ≠ "") (screenPatterns (start o tests))
  ∧ runCleanScreenshots (options (start o tests)) = true
  ∧ usedRefPaths (options (start o tests)) = usedRefPaths o.
Proof.
  assert (screenPatterns (start o tests)
          = filter (λ pattern, pattern ≠ "")
              (match screenshotPaths o with
               | PathsNull => []
               | PathsString pattern => [pattern]
               | PathsArray patterns => patterns
               end)) as Hstart.
  { unfold start; simpl. destruct (screenshotPaths o) as [|pattern|patterns]; simpl.
    - done.
    - destruct (String.eqb_spec pattern "") as [->|Hne]; simpl.
      + by rewrite filter_cons_False by (intros H; by apply H).
      + by rewrite filter_cons_True.
    - apply compact_Some. }
  split_and!; [done | | done | done].
  rewrite Hstart. apply Forall_forall. intros pattern Hin.
  by apply list_elem_of_filter in Hin as [? _].
Qed.

(** ** The order of the calls of the command *)

Ltac observe_calls :=
  unfold statCalls, unlinkCalls, promptCalls, exitCodes, expandCalls,
         logged_log, logged_error;
  repeat progress
    (csimpl;
     rewrite ?omap_app, ?(omap_map_Some _ FsStat), ?(omap_map_Some _ FsUnlink),
             ?(omap_map_None _ FsStat), ?(omap_map_None _ FsUnlink),
             ?omap_catchBlock by done);
  rewrite ?app_nil_r; try done.

Section PhaseFacts.
Context {runnable : Type} (c : collaborators runnable) (e : env runnable).

(** Every run of the command, by the calls it made: each kind of call tells
    how the calls before it were answered. *)
Lemma action_phases (o : opts) (tests : store) :
  let s := afterRun c e o tests in
  let patterns := uniq (screenPatterns s) in
  let calls := action c e o tests in
  (expandCalls calls ≠ [] → (run c).2 = Ok ())
  ∧ (statCalls calls ≠ [] →
     ∃ found, expandPaths c patterns = Ok found
              ∧ statCalls calls = unusedRefPaths found s)
  ∧ (promptCalls calls ≠ [] →
     ∃ found sizes,
       expandPaths c patterns = Ok found
       ∧ settleAll (map (stat c) (unusedRefPaths found s)) = Ok sizes
       ∧ (promptCalls calls = ["show"]
          ∨ (promptCalls calls = ["show"; "remove"]
             ∧ ∃ show, prompt c "show" = Ok show)))
  ∧ (unlinkCalls calls ≠ [] →
     ∃ found,
       expandPaths c patterns = Ok found
       ∧ prompt c "remove" = Ok true
       ∧ promptCalls calls = ["show"; "remove"]
       ∧ unlinkCalls calls = unusedRefPaths found s).
Proof.
  intros s patterns calls. subst calls.
  unfold action, body, reconcile, bind, await, emit, pMap, ret.
  fold s. fold patterns.
  destruct (run c).2 as [[]|err] eqn:Hrun; simpl.
  2:{ split_and!; observe_calls; by intros []. }
  destruct (expandPaths c patterns) as [found|err] eqn:Hexpand; simpl.
  2:{ split_and!; observe_calls; by intros []. }
  destruct (isEmpty found) eqn:Hempty.
  { simpl. split_and!; try done; by intros []. }
  set (unused := unusedRefPaths found s).
  destruct (isEmpty unused) eqn:Hunused.
  { simpl. split_and!; try done; by intros []. }
  destruct (settleAll (map (stat c) unused)) as [sizes|err] eqn:Hstat.
  2:{ simpl. split_and!; [done | | |]; observe_calls; try (by intros []).
      intros _. by exists found. }
  destruct (prompt c "show") as [show|err] eqn:Hshow.
  2:{ simpl. split_and!; [done | | |]; observe_calls; try (by intros []).
      - intros _. by exists found.
      - intros _. exists found, sizes. split_and!; [done..|]. by left. }
  destruct (prompt c "remove") as [remove|err] eqn:Hremove.
  2:{ destruct show; simpl; (split_and!; [done | | |]); observe_calls;
        try (by intros []); intros _.
      all: try (by exists found).
      all: exists found, sizes; split_and!; [done..|]; right; eauto. }
  destruct remove; simpl.
  - destruct (settleAll (map (unlink c) unused)) as [done_|err] eqn:Hunlink;
      destruct show; simpl; (split_and!; [done | | |]); observe_calls; intros _.
    all: try (by exists found).
    all: exists found, sizes; split_and!; [done..|]; right; eauto.
  - destruct show; simpl; (split_and!; [done | | |]); observe_calls;
      try (by intros []); intros _.
    all: try (by exists found).
    all: exists found, sizes; split_and!; [done..|]; right; eauto.
Qed.

End PhaseFacts.

(** ** What the handlers keep *)

Section InvariantFacts.
Context {runnable : Type} (e : env runnable).

(** One event: the accumulator gains what the event reports, the patterns
    only grow, and the flag, the configured patterns and the contexts of the
    tests stay. *)
Lemma handle_spec (s : state) (ev : hostEvent runnable) :
  let s' := handle e s ev in
  default [] (usedRefPaths (options s'))
  = default [] (usedRefPaths (options s)) ++ reportedPaths e (tests s) [ev]
  ∧ runCleanScreenshots (options s') = runCleanScreenshots (options s)
  ∧ screenshotPaths (options s') = screenshotPaths (options s)
  ∧ (∀ r, ctx (tests s' r) = ctx (tests s r))
  ∧ ∃ more, screenPatterns s' = screenPatterns s ++ more.
Proof.
  destruct ev as [browsers eachTest|finished]; simpl.
  - destruct (onAfterTestsRead_spec e browsers eachTest s) as (Hpat & Hopts & Htests).
    cbv zeta in Hpat, Hopts, Htests. rewrite Hopts, Hpat, app_nil_r.
    split_and!; [done..| |by eexists].
    intros r. rewrite Htests. destruct (decide _); [apply ctx_visited | done].
  - unfold onTestEnd.
    destruct (getUsedRefPaths (tests s (getTestContext e finished))) as [paths|];
      simpl; rewrite !app_nil_r; (split_and!; [done..|]);
      exists []; by rewrite app_nil_r.
Qed.

Lemma reportedPaths_ctx (tests tests' : store) (events : list (hostEvent runnable)) :
  (∀ r, ctx (tests' r) = ctx (tests r)) →
  reportedPaths e tests' events = reportedPaths e tests events.
Proof.
  intros Hctx. unfold reportedPaths.
  induction events as [|[browsers eachTest|finished] events IH]; simpl;
    [done | exact IH |].
  f_equal; [|exact IH]. unfold getUsedRefPaths. by rewrite Hctx.
Qed.

Lemma foldl_handle_spec (events : list (hostEvent runnable)) (s : state) :
  let s' := foldl (handle e) s events in
  default [] (usedRefPaths (options s'))
  = default [] (usedRefPaths (options s)) ++ reportedPaths e (tests s) events
  ∧ runCleanScreenshots (options s') = runCleanScreenshots (options s)
  ∧ screenshotPaths (options s') = screenshotPaths (options s)
  ∧ (∀ r, ctx (tests s' r) = ctx (tests s r))
  ∧ ∃ more, screenPatterns s' = screenPatterns s ++ more.
Proof.
  revert s. induction events as [|ev events IH]; intros s; simpl.
  - rewrite app_nil_r. split_and!; [done..|]. exists []. by rewrite app_nil_r.
  - destruct (handle_spec s ev) as (Hused & Hflag & Hpaths & Hctx & more & Hpat).
    destruct (IH (handle e s ev)) as (Hused' & Hflag' & Hpaths' & Hctx' & more' & Hpat').
    cbv zeta in *. rewrite Hused', Hflag', Hpaths', Hpat', Hused, Hflag, Hpaths, Hpat.
    split_and!; [|done|done| |].
    + rewrite (reportedPaths_ctx (tests s) _ events Hctx), <- app_assoc.
      f_equal. unfold reportedPaths. simpl. by rewrite app_nil_r.
    + intros r. by rewrite Hctx', Hctx.
    + exists (more ++ more'). by rewrite app_assoc.
Qed.

End InvariantFacts.

Section RunInvariants.
Context {runnable : Type} (c : collaborators runnable) (e : env runnable).

(** X5.  Once the run is over, the accumulator holds what it held in the
    configured options followed by the paths the finished tests carried, in
    the order their TEST_END events arrived, with nothing dropped and nothing
    deduplicated; the flag is set, the configured patterns and the contexts
    of the tests are as they were, and the accumulator is absent only if it
    was absent and no finished test carried a list. *)
Theorem run_accumulates_reported_paths (o : opts) (tests : store) :
  let s := afterRun c e o tests in
  default [] (usedRefPaths (options s))
  = default [] (usedRefPaths o) ++ reportedPaths e tests (run c).1
  ∧ runCleanScreenshots (options s) = true
  ∧ screenshotPaths (options s) = screenshotPaths o
  ∧ (∀ r, ctx (Master.tests s r) = ctx (tests r))
  ∧ (usedRefPaths (options s) = None →
     usedRefPaths o = None ∧ reportedPaths e tests (run c).1 = []).
Proof.
  intros s.
  destruct (foldl_handle_spec e (run c).1 (start o tests))
    as (Hused & Hflag & Hpaths & Hctx & _).
  fold (afterRun c e o tests) in Hused, Hflag, Hpaths, Hctx. fold s in Hused, Hflag, Hpaths, Hctx.
  simpl in Hused, Hflag, Hpaths, Hctx.
  split_and!; [done..|].
  intros Habsent. rewrite Habsent in Hused. simpl in Hused.
  symmetry in Hused. apply app_eq_nil in Hused as [Ho Hreported].
  split; [|done].
  destruct (usedRefPaths o) as [used|] eqn:Hinit; [|done].
  exfalso. clear Hflag Hpaths Hctx Ho Hreported.
  assert (∀ events s0, is_Some (usedRefPaths (options s0)) →
            is_Some (usedRefPaths (options (foldl (handle e) s0 events)))) as Hsome.
  { induction events as [|ev events IH]; intros s0 Hs0; simpl; [done|].
    apply IH. destruct ev as [browsers eachTest|finished]; simpl.
    - destruct (onAfterTestsRead_spec e browsers eachTest s0) as (_ & -> & _). done.
    - unfold onTestEnd. by destruct (getUsedRefPaths _). }
  destruct (Hsome (run c).1 (start o tests)) as [x Hx].
  { simpl. rewrite Hinit. by eexists. }
  fold (afterRun c e o tests) in Hx. fold s in Hx. congruence.
Qed.

End RunInvariants.

(** ** What the command never does *)

Section SafetyFacts.
Context {runnable : Type} (c : collaborators runnable) (e : env runnable).

(** X1.  No file is unlinked unless the run resolved and the "remove" question
    was answered [true]; the unlink calls then are exactly the unused paths,
    and they all come after that question, which comes after the "show"
    question: nothing is unlinked before, and nothing after. *)
Theorem no_unlink_without_confirmation (o : opts) (tests : store) :
  let s := afterRun c e o tests in
  let calls := action c e o tests in
  unlinkCalls calls ≠ [] →
  (run c).2 = Ok ()
  ∧ prompt c "remove" = Ok true
  ∧ ∃ before after found,
      expandPaths c (uniq (screenPatterns s)) = Ok found
      ∧ calls = before ++ Prompt "remove" "Remove unused screenshots?"
                       :: map FsUnlink (unusedRefPaths found s) ++ after
      ∧ unlinkCalls before = [] ∧ promptCalls before = ["show"]
      ∧ statCalls before = unusedRefPaths found s
      ∧ unlinkCalls after = [] ∧ promptCalls after = [] ∧ statCalls after = [].
Proof.
  intros s calls. subst calls.
  unfold action, body, reconcile, bind, await, emit, pMap, ret. fold s.
  destruct (run c).2 as [[]|err] eqn:Hrun; simpl;
    [|observe_calls; by intros []].
  destruct (expandPaths c (uniq (screenPatterns s))) as [found|err] eqn:Hexpand;
    simpl; [|observe_calls; by intros []].
  destruct (isEmpty found); [by intros []|].
  set (unused := unusedRefPaths found s).
  destruct (isEmpty unused); [by intros []|].
  destruct (settleAll (map (stat c) unused)) as [sizes|err];
    [|simpl; observe_calls; by intros []].
  destruct (prompt c "show") as [show|err];
    [|simpl; observe_calls; by intros []].
  destruct (prompt c "remove") as [[]|err] eqn:Hremove;
    [| destruct show; simpl; observe_calls; by intros []
     | destruct show; simpl; observe_calls; by intros []].
  intros _. split_and!; [done..|].
  destruct (settleAll (map (unlink c) unused)) as [done_|err], show; simpl.
  - eexists (HermioneRun :: _ :: _ :: _ :: _ :: map FsStat unused ++ [_; _; _]),
            _, found.
    split; [done|]. split; [simpl; rewrite <- !(app_assoc (map FsStat unused)); simpl; reflexivity|].
    split_and!; observe_calls.
  - eexists (HermioneRun :: _ :: _ :: _ :: _ :: map FsStat unused ++ [_; _]),
            _, found.
    split; [done|]. split; [simpl; rewrite <- !(app_assoc (map FsStat unused)); simpl; reflexivity|].
    split_and!; observe_calls.
  - eexists (HermioneRun :: _ :: _ :: _ :: _ :: map FsStat unused ++ [_; _; _]),
            _, found.
    split; [done|]. split; [simpl; rewrite <- !(app_assoc (map FsStat unused)); simpl; reflexivity|].
    split_and!; observe_calls.
  - eexists (HermioneRun :: _ :: _ :: _ :: _ :: map FsStat unused ++ [_; _]),
            _, found.
    split; [done|]. split; [simpl; rewrite <- !(app_assoc (map FsStat unused)); simpl; reflexivity|].
    split_and!; observe_calls.
Qed.

End SafetyFacts.

Section LodashOrder.
Implicit Types (array result : list string).

Lemma baseUniq_prefix result array : ∃ more, baseUniq result array = result ++ more.
Proof.
  revert result. induction array as [|x array IH]; intros result; simpl.
  - exists []. by rewrite app_nil_r.
  - destruct (decide (x ∈ result)); [apply IH|].
    destruct (IH (result ++ [x])) as [more ->].
    exists (x :: more). by rewrite <- app_assoc.
Qed.

Lemma baseUniq_app result array array' :
  baseUniq result (array ++ array') = baseUniq (baseUniq result array) array'.
Proof.
  revert result. induction array as [|x array IH]; intros result; simpl; [done|].
  by destruct (decide (x ∈ result)).
Qed.

End LodashOrder.

Section ReachFacts.
Context {runnable : Type} (c : collaborators runnable) (e : env runnable).

Lemma elem_of_reportedPaths (tests : store) (events : list (hostEvent runnable))
    (path : string) :
  path ∈ reportedPaths e tests events
  ↔ ∃ finished, TestEnd finished ∈ events
                ∧ path ∈ default [] (getUsedRefPaths (tests (getTestContext e finished))).
Proof.
  unfold reportedPaths. induction events as [|ev events IH]; simpl.
  - split; [by intros ?%elem_of_nil | by intros (? & ?%elem_of_nil & _)].
  - rewrite elem_of_app, IH. split.
    + intros [Hin|(finished & Hev & Hin)].
      * destruct ev as [|finished]; [by apply elem_of_nil in Hin|].
        exists finished. split; [left | done].
      * exists finished. split; [by right | done].
    + intros (finished & [<-|Hev]%elem_of_cons & Hin); [by left|].
      right. by exists finished.
Qed.

(** X2.  Each kind of call tells how the calls before it were answered: the
    patterns are expanded only if the run resolved, a file is sized only if
    the expansion resolved (and then the sized files are the unused ones),
    a question is asked only if every size was read, "remove" only after
    "show" was answered, and a file is unlinked only if "remove" was
    answered [true]. *)
Theorem each_call_needs_the_calls_before (o : opts) (tests : store) :
  let s := afterRun c e o tests in
  let patterns := uniq (screenPatterns s) in
  let calls := action c e o tests in
  (expandCalls calls ≠ [] → (run c).2 = Ok ())
  ∧ (statCalls calls ≠ [] →
     ∃ found, expandPaths c patterns = Ok found
              ∧ statCalls calls = unusedRefPaths found s)
  ∧ (promptCalls calls ≠ [] →
     ∃ found sizes,
       expandPaths c patterns = Ok found
       ∧ settleAll (map (stat c) (unusedRefPaths found s)) = Ok sizes
       ∧ (promptCalls calls = ["show"]
          ∨ (promptCalls calls = ["show"; "remove"]
             ∧ ∃ show, prompt c "show" = Ok show)))
  ∧ (unlinkCalls calls ≠ [] →
     ∃ found,
       expandPaths c patterns = Ok found
       ∧ prompt c "remove" = Ok true
       ∧ promptCalls calls = ["show"; "remove"]
       ∧ unlinkCalls calls = unusedRefPaths found s).
Proof. exact (action_phases c e o tests). Qed.

(** X3.  A path the command sizes or unlinks was found by the expansion and is
    not among the used paths of the run. *)
Theorem touched_paths_are_found_and_unused (o : opts) (tests : store)
    (path : string) :
  let s := afterRun c e o tests in
  let calls := action c e o tests in
  path ∈ statCalls calls ∨ path ∈ unlinkCalls calls →
  ∃ found, expandPaths c (uniq (screenPatterns s)) = Ok found
           ∧ path ∈ found
           ∧ path ∉ default [] (usedRefPaths (options s)).
Proof.
  intros s calls Hin.
  destruct (action_phases c e o tests) as (_ & Hstat & _ & Hunlink).
  fold s in Hstat, Hunlink. fold calls in Hstat, Hunlink.
  assert (∃ found, expandPaths c (uniq (screenPatterns s)) = Ok found
                   ∧ path ∈ unusedRefPaths found s) as (found & Hexpand & Hunused).
  { destruct Hin as [Hin|Hin].
    - destruct Hstat as (found & Hexpand & Heq).
      { intros Hnil. rewrite Hnil in Hin. by apply elem_of_nil in Hin. }
      exists found. by rewrite <- Heq.
    - destruct Hunlink as (found & Hexpand & _ & _ & Heq).
      { intros Hnil. rewrite Hnil in Hin. by apply elem_of_nil in Hin. }
      exists found. by rewrite <- Heq. }
  exists found. split; [done|].
  unfold unusedRefPaths, difference in Hunused.
  by apply elem_of_baseDifference in Hunused.
Qed.

(** X4.  A path that was configured as used, or that a finished test of the run
    carried in its [hermioneCtx.usedRefPaths], is neither sized nor
    unlinked, whatever the expansion finds and whatever is answered. *)
Theorem reported_paths_are_never_touched (o : opts) (tests : store)
    (path : string) :
  path ∈ default [] (usedRefPaths o)
  ∨ (∃ finished, TestEnd finished ∈ (run c).1
                 ∧ path ∈ default [] (getUsedRefPaths
                                        (tests (getTestContext e finished)))) →
  (path ∉ statCalls (action c e o tests))
  ∧ (path ∉ unlinkCalls (action c e o tests)).
Proof.
  intros Hused.
  assert (path ∈ default [] (usedRefPaths (options (afterRun c e o tests))))
    as Hafter.
  { destruct (foldl_handle_spec e (run c).1 (start o tests)) as (Hacc & _).
    unfold afterRun. rewrite Hacc. simpl. apply elem_of_app.
    destruct Hused as [?|Hreported]; [by left|].
    right. by apply elem_of_reportedPaths. }
  destruct (action_phases c e o tests) as (_ & Hstat & _ & Hunlink).
  cbv zeta in Hstat, Hunlink.
  assert (∀ found, path ∉ unusedRefPaths found (afterRun c e o tests)) as Hnot.
  { intros found Hin. unfold unusedRefPaths, difference in Hin.
    apply elem_of_baseDifference in Hin. tauto. }
  split; intros Hin.
  - destruct Hstat as (found & _ & Heq).
    { intros Hnil. rewrite Hnil in Hin. by apply elem_of_nil in Hin. }
    rewrite Heq in Hin. by apply Hnot in Hin.
  - destruct Hunlink as (found & _ & _ & _ & Heq).
    { intros Hnil. rewrite Hnil in Hin. by apply elem_of_nil in Hin. }
    rewrite Heq in Hin. by apply Hnot in Hin.
Qed.

(** X6.  Whatever the run emits, once it resolves [glob.expandPaths] is called
    exactly once, with a list without duplicates that starts with the
    configured non-empty patterns, deduplicated, in their order: every
    configured pattern is searched. *)
Theorem configured_patterns_are_always_searched (o : opts) (tests : store) :
  (run c).2 = Ok () →
  let static := screenPatterns (start o tests) in
  ∃ handed more,
    expandCalls (action c e o tests) = [handed]
    ∧ NoDup handed
    ∧ handed = uniq static ++ more
    ∧ ∀ pattern, pattern ∈ static → pattern ∈ handed.
Proof.
  intros Hrun static.
  destruct (action_calls c e o tests Hrun) as [Hexpand _].
  destruct (foldl_handle_spec e (run c).1 (start o tests))
    as (_ & _ & _ & _ & derived & Hpatterns).
  fold (afterRun c e o tests) in Hpatterns. fold static in Hpatterns.
  destruct (baseUniq_prefix (uniq static) derived) as [more Hmore].
  exists (uniq (screenPatterns (afterRun c e o tests))), more.
  split_and!; [done | apply NoDup_uniq | |].
  - rewrite Hpatterns. unfold uniq at 1. by rewrite baseUniq_app.
  - intros pattern Hin. rewrite elem_of_uniq, Hpatterns, elem_of_app. by left.
Qed.

End ReachFacts.

(** ** What the operator is told *)

Section TranscriptFacts.
Context {runnable : Type} (c : collaborators runnable) (e : env runnable).

Lemma settleAll_Forall2 {A} (mapper : string → result A) (input : list string)
    (values : list A) :
  Forall2 (λ path a, mapper path = Ok a) input values →
  settleAll (map mapper input) = Ok values.
Proof.
  induction 1 as [|path a input values Hpath _ IH]; simpl; [done|].
  by rewrite Hpath, IH.
Qed.

Lemma foldl_add (sizes : list Z) (acc : Z) :
  foldl Z.add acc sizes = (acc + foldr Z.add 0 sizes)%Z.
Proof.
  revert acc. induction sizes as [|size sizes IH]; intros acc; simpl; [lia|].
  rewrite IH. lia.
Qed.

(** X8.  When every size is read, the sizes being non-negative whole numbers
    with a sum of at most 2^53 (where the additions of the source, on
    doubles, are exact), both questions are answered and (on [true])
    every unlink succeeds, [logger.log] is given exactly: the number of
    unused paths with [filesize] of the sum of their sizes; then the list of
    the unused paths if and only if "show" was answered [true]; then the
    success of the deletion if "remove" was answered [true] and its
    cancellation otherwise.  Nothing goes to [logger.error], both questions
    are asked, "show" first, and nothing exits. *)
Theorem log_transcript (o : opts) (tests : store) (found : list string)
    (sizes : list Z) (show remove : bool) :
  let s := afterRun c e o tests in
  let unused := unusedRefPaths found s in
  let calls := action c e o tests in
  (run c).2 = Ok () →
  expandPaths c (uniq (screenPatterns s)) = Ok found →
  unused ≠ [] →
  Forall2 (λ path size, stat c path = Ok size) unused sizes →
  Forall (λ size, (0 ≤ size)%Z) sizes →
  (foldr Z.add 0 sizes ≤ 2 ^ 53)%Z →
  prompt c "show" = Ok show →
  prompt c "remove" = Ok remove →
  (remove = true → ∀ path, path ∈ unused → unlink c path = Ok ()) →
  logged_log calls
  = ["Found " +:+ pretty (length unused) +:+ " unused screenshots with total size "
     +:+ filesize c (foldr Z.add 0%Z sizes)]
    ++ (if show then ["List of unused screenshots:" +:+ nl +:+ join nl unused]
        else [])
    ++ [if remove then "Deletion of unused screenshots was succeeded"
        else "Deletion of unused screenshots was canceled"]
  ∧ logged_error calls = []
  ∧ promptCalls calls = ["show"; "remove"]
  ∧ exitCodes calls = [].
Proof.
  intros s unused calls Hrun Hexpand Hne Hsizes _ _ Hshow Hremove Hunlink.
  subst calls.
  assert (isEmpty found = false) as Hfound.
  { destruct found; [|done]. by destruct Hne. }
  assert (isEmpty unused = false) as Hunused by (by destruct unused).
  apply settleAll_Forall2 in Hsizes.
  unfold action, body, reconcile, bind, await, emit, pMap, ret.
  rewrite Hrun. fold s. rewrite Hexpand. fold unused.
  rewrite Hfound, Hunused, Hsizes, Hshow, Hremove, foldl_add, Z.add_0_l.
  destruct remove.
  - destruct (settleAll_Ok (unlink c) unused) as (done_ & -> & _);
      [intros path Hpath; exists (); by apply Hunlink|].
    destruct show; simpl; split_and!; observe_calls.
  - destruct show; simpl; split_and!; observe_calls.
Qed.

End TranscriptFacts.

(** ** What is installed on a session, and when a test stops *)

Section SessionFacts.
Context {runnable : Type} (e : env runnable).

Lemma assertView_not_listed (b : browser runnable) :
  "assertView" ∉ commandsList e b.
Proof.
  unfold commandsList. rewrite list_elem_of_filter, rejected_false. tauto.
Qed.

(** X9.  With the flag set, the NEW_BROWSER handler calls [addCommand] once for
    [assertView], last, whether or not the prototype has an [assertView] of
    its own; every other call names a key of the prototype, and when the
    keys of the prototype are distinct no name is installed twice. *)
Theorem assertView_is_installed_once (o : opts) (b : browser runnable)
    (browserId : string) :
  runCleanScreenshots o = true →
  let calls := (onNewBrowser e o b browserId).2 in
  length (filter (λ call, call.1 = "assertView") calls) = 1
  ∧ last calls = Some ("assertView", AssertView (forBrowser e browserId))
  ∧ length calls = S (length (commandsList e b))
  ∧ (∀ name, name ∈ calls.*1 → name ∈ protoKeys b ∨ name = "assertView")
  ∧ (NoDup (protoKeys b) → NoDup calls.*1).
Proof.
  intros Hflag calls. subst calls. unfold onNewBrowser. rewrite Hflag. simpl.
  assert (∀ names : list string,
            (map (λ commandName, (commandName, Stub)) names).*1 = names) as Hnames.
  { induction names as [|n names IH]; [done|]. simpl. f_equal. exact IH. }
  pose proof (assertView_not_listed b) as Hnot.
  split_and!.
  - rewrite filter_app, length_app.
    assert (filter (λ call : string * command, call.1 = "assertView")
              (map (λ commandName, (commandName, Stub)) (commandsList e b)) = [])
      as ->.
    { induction (commandsList e b) as [|n names IH]; simpl; [done|].
      rewrite filter_cons_False.
      - apply IH. intros Hin. apply Hnot. by right.
      - simpl. intros ->. apply Hnot. left. }
    done.
  - apply last_snoc.
  - rewrite length_app, length_map. simpl. lia.
  - intros name. rewrite fmap_app, Hnames, elem_of_app. simpl.
    rewrite list_elem_of_singleton. intros [Hin|?]; [left | by right].
    unfold commandsList in Hin. by apply list_elem_of_filter in Hin as [_ ?].
  - intros Hnd. rewrite fmap_app, Hnames. simpl.
    apply NoDup_app. split_and!.
    + unfold commandsList. by apply NoDup_filter.
    + intros name Hin ->%list_elem_of_singleton. by apply Hnot.
    + apply NoDup_singleton.
Qed.

(** X10.  A resolver that throws ends the test there: the states before it are
    resolved as usual, the resolver is asked for the failing state, what it
    threw comes out of the call, and [assertView] is not called for any later
    state. *)
Theorem resolver_failure_ends_the_test (browserConfig : browserConfig)
    (b : browser runnable) (tests : store) (before : hermioneCtx)
    (states paths : list string) (bad : string) (rest : list string)
    (err : thrown) :
  let t := getTestContext e (executionContext b) in
  ctx (tests t) = Some before →
  Forall2 (λ state path,
             ∀ used, getScreenshotPath browserConfig (withUsed (tests t) used) state
                     = Ok path)
          states paths →
  (∀ used, getScreenshotPath browserConfig (withUsed (tests t) used) bad
           = Throw err) →
  assertViews e browserConfig b tests (states ++ bad :: rest)
  = (flat_map (λ state, [CallGetTestContext (executionContext b);
                        CallGetScreenshotPath t state]) (states ++ [bad]),
     Throw err).
Proof.
  intros t Hctx Hresolver Hbad.
  assert (tests t = withUsed (tests t) (ctx_usedRefPaths before)) as Ht.
  { destruct (tests t) as [f p k h]. simpl in Hctx. subst h. by destruct before. }
  assert (∀ object,
            Forall2 (λ state path,
                       ∀ used, getScreenshotPath browserConfig
                                 (withUsed object used) state = Ok path)
                    states paths →
            (∀ used, getScreenshotPath browserConfig (withUsed object used) bad
                     = Throw err) →
            ∀ used tests,
              tests t = withUsed object used →
              assertViews e browserConfig b tests (states ++ bad :: rest)
              = (flat_map (λ state, [CallGetTestContext (executionContext b);
                                    CallGetScreenshotPath t state])
                          (states ++ [bad]),
                 Throw err)) as Hgen.
  { clear. intros object Hresolver Hbad.
    induction Hresolver as [|state path states paths Hpath _ IH];
      intros used tests Ht; simpl.
    - unfold assertView. fold t. by rewrite Ht, Hbad.
    - unfold assertView at 1. fold t. rewrite Ht, Hpath. simpl.
      rewrite (IH (Some (default [] used ++ [path]))); [done|].
      etrans; [apply fn_lookup_insert | done]. }
  by apply (Hgen (tests t) Hresolver Hbad (ctx_usedRefPaths before)).
Qed.

End SessionFacts.

(** * The further properties on concrete runs *)

(** A run in which one finished test used [plain.png] and the removal is
    confirmed: only [hover.png] is unlinked, after the question. *)
Lemma no_unlink_without_confirmation_witness :
  let c := world [TestEnd 1] bothScreens true (Ok ()) in
  unlinkCalls (action c hermione screens suite) = ["/screens/hover.png"]
  ∧ (run c).2 = Ok ()
  ∧ prompt c "remove" = Ok true.
Proof.
  cbv zeta.
  destruct (no_unlink_without_confirmation
              (world [TestEnd 1] bothScreens true (Ok ())) hermione screens suite)
    as (Hrun & Hremove & _).
  { vm_compute. discriminate. }
  split_and!; [reflexivity | exact Hrun | exact Hremove].
Defined.

Lemma touched_paths_are_found_and_unused_witness :
  let c := world [TestEnd 1] bothScreens true (Ok ()) in
  ∃ found,
    expandPaths c (uniq (screenPatterns (afterRun c hermione screens suite)))
    = Ok found
    ∧ "/screens/hover.png" ∈ found
    ∧ "/screens/hover.png"
      ∉ default [] (usedRefPaths (options (afterRun c hermione screens suite))).
Proof.
  cbv zeta.
  apply (touched_paths_are_found_and_unused
           (world [TestEnd 1] bothScreens true (Ok ())) hermione screens suite
           "/screens/hover.png").
  right.
  assert (unlinkCalls (action (world [TestEnd 1] bothScreens true (Ok ()))
                              hermione screens suite)
          = ["/screens/hover.png"]) as -> by reflexivity.
  left.
Defined.

Lemma reported_paths_are_never_touched_witness :
  let c := world [TestEnd 1] bothScreens true (Ok ()) in
  ("/screens/plain.png" ∉ statCalls (action c hermione screens suite))
  ∧ ("/screens/plain.png" ∉ unlinkCalls (action c hermione screens suite)).
Proof.
  cbv zeta.
  apply (reported_paths_are_never_touched
           (world [TestEnd 1] bothScreens true (Ok ())) hermione screens suite
           "/screens/plain.png").
  right. exists 1. split; [left | left].
Defined.

Lemma configured_patterns_are_always_searched_witness :
  let c := world [AfterTestsRead ["yabro"] [(0, "yabro")];
                  AfterTestsRead ["yabro"] [(0, "yabro")]] [] false (Ok ()) in
  ∃ handed more,
    expandCalls (action c hermione screens suite) = [handed]
    ∧ NoDup handed
    ∧ handed = uniq (screenPatterns (start screens suite)) ++ more
    ∧ ∀ pattern, pattern ∈ screenPatterns (start screens suite) → pattern ∈ handed.
Proof.
  cbv zeta.
  exact (configured_patterns_are_always_searched
           (world [AfterTestsRead ["yabro"] [(0, "yabro")];
                   AfterTestsRead ["yabro"] [(0, "yabro")]] [] false (Ok ()))
           hermione screens suite eq_refl).
Defined.

(** The two screenshots of 100 and 200 bytes, the list declined, the removal
    confirmed. *)
Lemma log_transcript_witness :
  let c := world [] bothScreens true (Ok ()) in
  logged_log (action c hermione screens suite)
  = ["Found 2 unused screenshots with total size 300 B";
     "Deletion of unused screenshots was succeeded"]
  ∧ logged_error (action c hermione screens suite) = []
  ∧ promptCalls (action c hermione screens suite) = ["show"; "remove"]
  ∧ exitCodes (action c hermione screens suite) = [].
Proof.
  cbv zeta.
  apply (log_transcript (world [] bothScreens true (Ok ())) hermione screens suite
           bothScreens [100%Z; 200%Z] false true);
    [reflexivity | reflexivity | discriminate
    | repeat constructor | repeat constructor; lia | vm_compute; discriminate
    | reflexivity | reflexivity
    | intros _ path _; reflexivity].
Defined.

Lemma assertView_is_installed_once_witness :
  let calls := (onNewBrowser hermione (Opts PathsNull None true) session "yabro").2 in
  length (filter (λ call, call.1 = "assertView") calls) = 1
  ∧ last calls = Some ("assertView", AssertView (config "yabro"))
  ∧ length calls = 2.
Proof.
  cbv zeta.
  destruct (assertView_is_installed_once hermione (Opts PathsNull None true)
              session "yabro" eq_refl) as (Honce & Hlast & Hlength & _).
  split_and!; [exact Honce | exact Hlast | exact Hlength].
Defined.

(** The resolver of the scenario knows [plain1] and [plain2] only: a test
    that asks for [plain3] in between stops there. *)
Lemma resolver_failure_ends_the_test_witness :
  assertViews hermione (config "yabro") session suite ["plain1"; "plain3"; "plain2"]
  = ([CallGetTestContext 0; CallGetScreenshotPath 0 "plain1";
      CallGetTestContext 0; CallGetScreenshotPath 0 "plain3"],
     Throw (ErrorObject "Error: no such state")).
Proof.
  apply (resolver_failure_ends_the_test hermione (config "yabro") session suite
           (HermioneCtx None) ["plain1"] ["/ref/1"] "plain3" ["plain2"]
           (ErrorObject "Error: no such state"));
    [reflexivity
    | repeat (constructor; [intros; reflexivity|]); constructor
    | intros; reflexivity].
Defined.

(** The validators on the values of the repository's tests: the string
    ["true"] is no boolean, [100500] and [[100500]] are no patterns, an array
    of strings is. *)
Example validators_on_the_tested_values :
  Config.validateEnabled (Config.VString "true")
  = Config.Throws (Config.TypeError
      (Config.quote +:+ "enabled" +:+ Config.quote
       +:+ " option must be boolean, but got string"))
  ∧ Config.validateScreenshotPaths (λ _, "100500") (Config.VNumber 100500)
    = Config.Throws (Config.Error
        (Config.quote +:+ "screenshotPaths" +:+ Config.quote
         +:+ " option must be a string or an array of strings but got 100500"))
  ∧ Config.validateScreenshotPaths (λ _, "[100500]")
      (Config.VArray [Config.VNumber 100500]) ≠ Config.Returns
  ∧ Config.validateScreenshotPaths (λ _, "")
      (Config.VArray [Config.VString "/some/glob/**"]) = Config.Returns
  ∧ Config.validateScreenshotPaths (λ _, "") (Config.VArray []) = Config.Returns
  ∧ Config.validateScreenshotPaths (λ _, "") Config.VUndefined ≠ Config.Returns.
Proof. split_and!; try reflexivity; discriminate. Qed.

(** ** From the recorder to the accumulator *)

Section RoundTripFacts.
Context {runnable : Type} (e : env runnable).

(** X11.  What the [assertView] replacement writes is what the TEST_END handler
    reads.  When a test has called [assertView] at least once and its test
    object is the context of the finished runnable, the handler finds a list
    and the accumulator becomes its former entries, followed by the entries
    the test carried before and the paths resolved for the calls, in call
    order. *)
Theorem recorded_paths_reach_the_accumulator (browserConfig : browserConfig)
    (b : browser runnable) (tests : store) (before : hermioneCtx)
    (states paths : list string) (finished : runnable)
    (patterns : list string) (o : opts) :
  let t := getTestContext e (executionContext b) in
  getTestContext e finished = t →
  ctx (tests t) = Some before →
  states ≠ [] →
  Forall2 (λ state path,
             ∀ used, getScreenshotPath browserConfig (withUsed (tests t) used) state
                     = Ok path)
          states paths →
  ∃ calls tests',
    assertViews e browserConfig b tests states = (calls, Ok tests')
    ∧ usedRefPaths (options (onTestEnd e finished (State patterns o tests')))
      = Some (default [] (usedRefPaths o)
              ++ default [] (ctx_usedRefPaths before) ++ paths)
    ∧ Master.tests (onTestEnd e finished (State patterns o tests')) = tests'.
Proof.
  intros t Hfinished Hctx Hne Hresolver.
  assert (tests t = withUsed (tests t) (ctx_usedRefPaths before)) as Ht.
  { destruct (tests t) as [f p k h]. simpl in Hctx. subst h. by destruct before. }
  destruct (assertViews_spec e browserConfig b (tests t) states paths Hresolver
              tests (ctx_usedRefPaths before) Ht)
    as (tests' & Hcalls & Hobject & _).
  fold t in Hcalls, Hobject.
  eexists _, tests'. split; [exact Hcalls|].
  unfold onTestEnd. simpl. rewrite Hfinished, Hobject.
  destruct states; [done|]. simpl. done.
Qed.

End RoundTripFacts.

Lemma recorded_paths_reach_the_accumulator_witness :
  ∃ calls tests',
    assertViews hermione (config "yabro") session suite ["plain1"; "plain2"]
    = (calls, Ok tests')
    ∧ usedRefPaths (options (onTestEnd hermione 0
                               (State [] (Opts PathsNull (Some ["/ref/0"]) true)
                                      tests')))
      = Some ["/ref/0"; "/ref/1"; "/ref/2"]
    ∧ tests (onTestEnd hermione 0
               (State [] (Opts PathsNull (Some ["/ref/0"]) true) tests')) = tests'.
Proof.
  apply (recorded_paths_reach_the_accumulator hermione (config "yabro") session
           suite (HermioneCtx None) ["plain1"; "plain2"] ["/ref/1"; "/ref/2"] 0 []
           (Opts PathsNull (Some ["/ref/0"]) true));
    [reflexivity | reflexivity | discriminate
    | repeat (constructor; [intros; reflexivity|]); constructor].
Defined.
